(** * The chat client of script.js: conversation context, name heuristic,
      one request per submission.

    The script keeps the conversation in the array [messages], shows
    bubbles in the element [chatWindow] and talks to the completion
    service with [fetch].  The development embeds the script as functions
    on an explicit state: the synchronous prefix of the submit handler, its
    continuations after each [await], a whole submit cycle, and the event
    loop that interleaves them. *)

From Stdlib Require Import NArith String Ascii Decimal DecimalString DecimalPos
  DecimalN SpecFloat Lia.
From stdpp Require Import base option list.

Local Open Scope N_scope.

(** ** JavaScript strings *)

(** A JavaScript string is a sequence of UTF-16 code units. *)
Definition jsstring := list N.

(** The code units of an ASCII literal of the source. *)
Definition lit (s : string) : jsstring :=
  map N_of_ascii (list_ascii_of_string s).

(** Decimal rendering of a non-negative integer, as in a template literal. *)
Definition decimal (n : N) : jsstring :=
  lit (NilEmpty.string_of_uint (N.to_uint n)).

Definition jsstring_eqb (a b : jsstring) : bool :=
  bool_decide (a = b).

(** WhiteSpace and LineTerminator code units of ECMAScript: what
    [String.prototype.trim] strips and what [\s] matches. *)
Definition isWhiteSpace (c : N) : bool :=
  (9 <=? c) && (c <=? 13)
  || (c =? 32) || (c =? 160) || (c =? 5760)
  || (8192 <=? c) && (c <=? 8202)
  || (c =? 8232) || (c =? 8233) || (c =? 8239) || (c =? 8287)
  || (c =? 12288) || (c =? 65279).

Fixpoint trimStart (s : jsstring) : jsstring :=
  match s with
  | c :: rest => if isWhiteSpace c then trimStart rest else s
  | [] => []
  end.

Definition trimEnd (s : jsstring) : jsstring := rev (trimStart (rev s)).

(** [s.trim()] *)
Definition trim (s : jsstring) : jsstring := trimEnd (trimStart s).

(** ** Regular expressions, as far as the script uses them

    A backtracking matcher in continuation-passing style, after the
    pattern semantics of ECMAScript: a matcher takes the match state and a
    continuation and answers with the final state or with failure. *)

Inductive charset :=
| CChar (c : N)            (* one pattern character *)
| CRange (lo hi : N)       (* [lo-hi] *)
| CSpace.                  (* \s *)

Inductive regex :=
| REmpty
| RSet (cs : charset)
| RPlus (cs : charset)     (* greedy cs+ *)
| RWordB                   (* \b *)
| RSeq (a b : regex)
| RAlt (a b : regex)
| RGroup (a : regex).      (* the capturing group 1 *)

(** Canonicalize of a pattern without the u flag: a code unit is compared
    through its upper-case form, and a code unit of 128 or more never maps
    below 128.  Every character of the script's pattern is ASCII, so only
    the ASCII letters take part; the other code units are left as they
    are, which decides every comparison with a pattern character the same
    way. *)
Definition canonicalize (ignoreCase : bool) (ch : N) : N :=
  if ignoreCase && (97 <=? ch) && (ch <=? 122) then ch - 32 else ch.

Definition range (lo hi : N) : list N :=
  map (fun i => lo + N.of_nat i) (seq 0 (N.to_nat (hi + 1 - lo))).

(** CharacterSetMatcher: some member of the set has the canonical form of
    the input character.  No code unit canonicalizes onto a white space. *)
Definition charset_match (ignoreCase : bool) (cs : charset) (ch : N) : bool :=
  match cs with
  | CChar c => canonicalize ignoreCase c =? canonicalize ignoreCase ch
  | CRange lo hi =>
      existsb (fun a => canonicalize ignoreCase a =? canonicalize ignoreCase ch)
              (range lo hi)
  | CSpace => isWhiteSpace ch
  end.

(** IsWordChar: the characters of [\w], which [\b] looks at. *)
Definition isWordChar (c : N) : bool :=
  (65 <=? c) && (c <=? 90) || (97 <=? c) && (c <=? 122)
  || (48 <=? c) && (c <=? 57) || (c =? 95).

(** Match state: the input split at the current position (the consumed
    part reversed) and the capture of group 1. *)
Record mstate := MState {
  before : list N;
  after : list N;
  capture : option jsstring
}.

Definition endIndex (x : mstate) : nat := length (before x).

(** As many further characters of the set as possible, fewer on
    backtracking. *)
Fixpoint star (ic : bool) (cs : charset) (bef aft : list N)
    (cap : option jsstring) (k : mstate -> option mstate) : option mstate :=
  match aft with
  | c :: rest =>
      if charset_match ic cs c then
        match star ic cs (c :: bef) rest cap k with
        | Some y => Some y
        | None => k (MState bef aft cap)
        end
      else k (MState bef aft cap)
  | [] => k (MState bef aft cap)
  end.

Fixpoint rmatch (ic : bool) (r : regex) (x : mstate)
    (k : mstate -> option mstate) : option mstate :=
  match r with
  | REmpty => k x
  | RSet cs =>
      match after x with
      | c :: rest =>
          if charset_match ic cs c
          then k (MState (c :: before x) rest (capture x))
          else None
      | [] => None
      end
  | RPlus cs =>
      match after x with
      | c :: rest =>
          if charset_match ic cs c
          then star ic cs (c :: before x) rest (capture x) k
          else None
      | [] => None
      end
  | RWordB =>
      let a := match before x with c :: _ => isWordChar c | [] => false end in
      let b := match after x with c :: _ => isWordChar c | [] => false end in
      if xorb a b then k x else None
  | RSeq a b => rmatch ic a x (fun y => rmatch ic b y k)
  | RAlt a b =>
      match rmatch ic a x k with
      | Some y => Some y
      | None => rmatch ic b x k
      end
  | RGroup a =>
      rmatch ic a x (fun y =>
        k (MState (before y) (after y)
             (Some (rev (take (endIndex y - endIndex x) (before y))))))
  end.

(** A literal of the pattern, character by character. *)
Definition rlit (s : string) : regex :=
  foldr (fun c r => RSeq (RSet (CChar c)) r) REmpty (lit s).

(** The first match, trying the start positions from the left. *)
Fixpoint exec_from (ic : bool) (r : regex) (bef aft : list N) : option mstate :=
  match rmatch ic r (MState bef aft None) Some with
  | Some y => Some y
  | None =>
      match aft with
      | c :: rest => exec_from ic r (c :: bef) rest
      | [] => None
      end
  end.

(** [text.match(re)] for a pattern without the g flag: [null], or the
    match array, of which the script reads entry 1. *)
Definition String_match (ic : bool) (r : regex) (text : jsstring)
    : option (option jsstring) :=
  capture <$> exec_from ic r [] text.

(** [/\b(?:my name is|i'm|i am)\s+([A-Z][a-z]+)\b/i] *)
Definition nameRegex : regex :=
  RSeq RWordB
    (RSeq (RAlt (rlit "my name is") (RAlt (rlit "i'm") (rlit "i am")))
       (RSeq (RPlus CSpace)
          (RSeq (RGroup (RSeq (RSet (CRange 65 90)) (RPlus (CRange 97 122))))
             RWordB))).

Definition nameMatch (text : jsstring) : option (option jsstring) :=
  String_match true nameRegex text.

(** ** Values of the response envelope *)

(** A JavaScript value as [resp.json()] can produce it, and [undefined].
    A number is the double it parsed to. *)
#[warnings="-register-all"]
Inductive jsval :=
| JUndefined
| JNull
| JBool (b : bool)
| JNum (x : spec_float)
| JStr (s : jsstring)
| JArr (items : list jsval)
| JObj (fields : list (jsstring * jsval)).

(** ToBoolean, as [!aiContent] uses it. *)
Definition truthy (v : jsval) : bool :=
  match v with
  | JUndefined | JNull => false
  | JBool b => b
  | JNum (S754_zero _) | JNum S754_nan => false
  | JNum _ => true
  | JStr s => negb (jsstring_eqb s [])
  | JArr _ | JObj _ => true
  end.

Fixpoint assoc (key : jsstring) (fields : list (jsstring * jsval)) : jsval :=
  match fields with
  | (k, v) :: rest => if jsstring_eqb k key then v else assoc key rest
  | [] => JUndefined
  end.

(** [v?.name] for one of the names [choices], [message], [content]: none
    of them is an index or a property that strings, arrays, numbers or
    booleans have of their own, so only an object can answer. *)
Definition opt_field (v : jsval) (name : string) : jsval :=
  match v with
  | JObj fields => assoc (lit name) fields
  | _ => JUndefined
  end.

(** [v?.[0]] *)
Definition opt_index0 (v : jsval) : jsval :=
  match v with
  | JArr (x :: _) => x
  | JStr (c :: _) => JStr [c]
  | JObj fields => assoc (lit "0") fields
  | _ => JUndefined
  end.

(** [data?.choices?.[0]?.message?.content] *)
Definition aiContent_of (data : jsval) : jsval :=
  opt_field (opt_field (opt_index0 (opt_field data "choices")) "message")
    "content".

(** ** Conversation state and page *)

Inductive Role := system | user | assistant.

Record Turn := MkTurn { role : Role; content : jsval }.

Definition SYSTEM_PROMPT : jsstring :=
  lit "You are a helpful assistant that ONLY answers questions about L'Or"
  ++ [233] ++ lit "al products, routines, and related beauty topics (skincare, haircare, makeup, product recommendations, ingredients, usage, and routines). Always be concise, accurate, and polite. Ask clarifying questions when needed. If a user asks anything unrelated to L'Or"
  ++ [233] ++ lit "al or general beauty topics, politely refuse with: "
  ++ [34] ++ lit "Sorry " ++ [8212] ++ lit " I can only help with L'Or"
  ++ [233] ++ lit "al products, routines, and related beauty questions."
  ++ [34] ++ lit " Do not provide medical, legal, or diagnostic advice; instead direct users to consult a qualified professional.".

Definition initialText : jsstring :=
  [55357; 56395] ++ lit " Hello! How can I help you with L'Or" ++ [233]
  ++ lit "al products or routines today?".

(** The children of [chatWindow] that the script creates.  A bubble is the
    wrapper of [appendMessage] with its optional name label and its text
    (the value assigned to [textContent]); the thinking indicator carries
    the identity of its element, which the handler keeps in a local. *)
Inductive node :=
| Bubble (className : jsstring) (name : option jsstring) (text : jsval)
| LatestQuestion (text : jsstring)
| Thinking (id : nat).

Record payload := MkPayload {
  body_model : jsstring;
  body_messages : list Turn;
  body_max_tokens : N
}.

(** A call of [fetch]; [body] is the object handed to [JSON.stringify] at
    the moment of the call. *)
Record request := MkRequest {
  url : jsstring;
  method : jsstring;
  headers : list (jsstring * jsstring);
  body : payload
}.

Record state := MkState {
  messages : list Turn;
  userName : option jsstring;            (* [None] is [null] *)
  chatWindow : list node;
  inputValue : jsstring;                 (* [userInput.value] *)
  inputDisabled : bool;                  (* [userInput.disabled] *)
  inputFocused : bool;
  OPENAI_API_KEY : option jsstring;      (* [None] when secrets.js gave none *)
  OPENAI_KEY_PRESENT : bool;
  requests : list request;               (* the calls of [fetch], oldest first *)
  consoleErrors : list jsstring;         (* what [console.error] received *)
  nextId : nat                           (* identity of the next element *)
}.

Definition set_messages (m : list Turn) (st : state) : state :=
  MkState m (userName st) (chatWindow st) (inputValue st) (inputDisabled st)
    (inputFocused st) (OPENAI_API_KEY st) (OPENAI_KEY_PRESENT st)
    (requests st) (consoleErrors st) (nextId st).

Definition set_userName (u : option jsstring) (st : state) : state :=
  MkState (messages st) u (chatWindow st) (inputValue st) (inputDisabled st)
    (inputFocused st) (OPENAI_API_KEY st) (OPENAI_KEY_PRESENT st)
    (requests st) (consoleErrors st) (nextId st).

Definition set_chatWindow (w : list node) (st : state) : state :=
  MkState (messages st) (userName st) w (inputValue st) (inputDisabled st)
    (inputFocused st) (OPENAI_API_KEY st) (OPENAI_KEY_PRESENT st)
    (requests st) (consoleErrors st) (nextId st).

Definition set_inputValue (v : jsstring) (st : state) : state :=
  MkState (messages st) (userName st) (chatWindow st) v (inputDisabled st)
    (inputFocused st) (OPENAI_API_KEY st) (OPENAI_KEY_PRESENT st)
    (requests st) (consoleErrors st) (nextId st).

Definition set_inputDisabled (d : bool) (st : state) : state :=
  MkState (messages st) (userName st) (chatWindow st) (inputValue st) d
    (inputFocused st) (OPENAI_API_KEY st) (OPENAI_KEY_PRESENT st)
    (requests st) (consoleErrors st) (nextId st).

Definition set_inputFocused (f : bool) (st : state) : state :=
  MkState (messages st) (userName st) (chatWindow st) (inputValue st)
    (inputDisabled st) f (OPENAI_API_KEY st) (OPENAI_KEY_PRESENT st)
    (requests st) (consoleErrors st) (nextId st).

Definition set_requests (r : list request) (st : state) : state :=
  MkState (messages st) (userName st) (chatWindow st) (inputValue st)
    (inputDisabled st) (inputFocused st) (OPENAI_API_KEY st)
    (OPENAI_KEY_PRESENT st) r (consoleErrors st) (nextId st).

Definition set_consoleErrors (c : list jsstring) (st : state) : state :=
  MkState (messages st) (userName st) (chatWindow st) (inputValue st)
    (inputDisabled st) (inputFocused st) (OPENAI_API_KEY st)
    (OPENAI_KEY_PRESENT st) (requests st) c (nextId st).

Definition set_nextId (n : nat) (st : state) : state :=
  MkState (messages st) (userName st) (chatWindow st) (inputValue st)
    (inputDisabled st) (inputFocused st) (OPENAI_API_KEY st)
    (OPENAI_KEY_PRESENT st) (requests st) (consoleErrors st) n.

(** [messages.push(t)] *)
Definition push (t : Turn) (st : state) : state :=
  set_messages (messages st ++ [t]) st.

(** [chatWindow.appendChild(n)]; the scroll position is not modelled. *)
Definition appendChild (n : node) (st : state) : state :=
  set_chatWindow (chatWindow st ++ [n]) st.

(** [appendMessage(text, className, meta)]: the name label is made when
    [meta.name] is truthy. *)
Definition appendMessage (text : jsval) (className : string)
    (name : option jsstring) (st : state) : state :=
  let label :=
    match name with
    | Some [] | None => None
    | Some n => Some n
    end in
  appendChild (Bubble (lit "msg " ++ lit className) label text) st.

Fixpoint remove_first (p : node -> bool) (w : list node) : list node :=
  match w with
  | n :: rest => if p n then rest else n :: remove_first p rest
  | [] => []
  end.

Definition is_latest_question (n : node) : bool :=
  match n with LatestQuestion _ => true | _ => false end.

Definition is_thinking (id : nat) (n : node) : bool :=
  match n with Thinking i => Nat.eqb i id | _ => false end.

(** [showLatestQuestion(text)] *)
Definition showLatestQuestion (text : jsstring) (st : state) : state :=
  let st := set_chatWindow (remove_first is_latest_question (chatWindow st)) st in
  appendChild (LatestQuestion (lit "Latest question: " ++ text)) st.

(** [thinking.remove()]; on an element that is no longer in the window it
    does nothing, which is also what the guarded call of the catch block
    does. *)
Definition remove_thinking (id : nat) (st : state) : state :=
  set_chatWindow (remove_first (is_thinking id) (chatWindow st)) st.

(** [userName || "You"] *)
Definition display_name (st : state) : jsstring :=
  match userName st with
  | Some [] | None => lit "You"
  | Some n => n
  end.

(** The state after the top level of the script has run with the given
    value of [OPENAI_API_KEY] ([None] when it is not defined). *)
Definition start (key : option jsstring) : state :=
  let present :=
    match key with
    | Some k => negb (jsstring_eqb k [])
    | None => false
    end in
  let st :=
    MkState [MkTurn system (JStr SYSTEM_PROMPT)] None [] [] false false
      key present [] [] 0%nat in
  let st := appendMessage (JStr initialText) "ai" None st in
  push (MkTurn assistant (JStr initialText)) st.

(** Loading the page: the script throws at once when a required element
    is missing. *)
Definition load (elements_found : bool) (key : option jsstring) : option state :=
  if negb elements_found then None else Some (start key).

(** ** The submit handler *)

(** How a promise settles: with a value, or rejected with an error whose
    [message] is given. *)
Inductive settled (A : Type) :=
| Resolved (a : A)
| Rejected (message : jsstring).
Arguments Resolved {A} a.
Arguments Rejected {A} message.

(** What the handler reads of a Response before its body. *)
Record response := MkResponse { status : N }.

(** [resp.ok]: the status is in the range 200 to 299. *)
Definition ok (resp : response) : bool :=
  (200 <=? status resp) && (status resp <=? 299).

(** The promise a suspended handler waits for. *)
Inductive await :=
| AwaitFetch
| AwaitText (status : N)
| AwaitJson.

(** A run of handler code ends with the handler finished, or suspended at
    an [await] with its local [thinking]. *)
Inductive progress :=
| Finished (st : state)
| Waiting (a : await) (thinking : nat) (st : state).

Definition missing_key_message : jsstring :=
  lit "OpenAI API key not found. Create secrets.js and define OPENAI_API_KEY.".

Definition no_content_message : jsstring :=
  lit "No content in API response.".

(** [`API error: ${resp.status} ${errText}`] *)
Definition api_error_message (status : N) (errText : jsstring) : jsstring :=
  lit "API error: " ++ decimal status ++ lit " " ++ errText.

(** The catch block, for an error with the given [message]. *)
Definition catch_block (thinking : nat) (message : jsstring) (st : state) : state :=
  let st := remove_thinking thinking st in
  let st := appendMessage (JStr (lit "Error: " ++ message)) "ai" None st in
  set_consoleErrors (consoleErrors st ++ [message]) st.

(** The finally block. *)
Definition finally_block (st : state) : state :=
  set_inputFocused true (set_inputDisabled false st).

Definition throw (thinking : nat) (message : jsstring) (st : state) : progress :=
  Finished (finally_block (catch_block thinking message st)).

(** The request of the handler, built from the state at the call. *)
Definition completion_request (st : state) : request :=
  MkRequest (lit "https://api.openai.com/v1/chat/completions") (lit "POST")
    [(lit "Content-Type", lit "application/json");
     (lit "Authorization",
      lit "Bearer " ++ default (lit "undefined") (OPENAI_API_KEY st))]
    (MkPayload (lit "gpt-4o") (messages st) 600).

(** The handler from the event to its first [await]. *)
Definition handler_start (st : state) : progress :=
  let text := trim (inputValue st) in
  if jsstring_eqb text [] then Finished st
  else
    let st :=
      match nameMatch text with
      | Some group1 =>
          let st := set_userName group1 st in
          push (MkTurn system
                  (JStr (lit "User's name is "
                         ++ default (lit "undefined") (userName st)
                         ++ lit "."))) st
      | None => st
      end in
    let st := appendMessage (JStr text) "user" (Some (display_name st)) st in
    let st := push (MkTurn user (JStr text)) st in
    let st := set_inputDisabled true (set_inputValue [] st) in
    let st := showLatestQuestion text st in
    let thinking := nextId st in
    let st := appendChild (Thinking thinking) (set_nextId (S thinking) st) in
    if negb (OPENAI_KEY_PRESENT st) then throw thinking missing_key_message st
    else
      Waiting AwaitFetch thinking
        (set_requests (requests st ++ [completion_request st]) st).

(** After [await fetch(...)]. *)
Definition after_fetch (thinking : nat) (r : settled response) (st : state)
    : progress :=
  match r with
  | Rejected message => throw thinking message st
  | Resolved resp =>
      if negb (ok resp) then Waiting (AwaitText (status resp)) thinking st
      else Waiting AwaitJson thinking st
  end.

(** After [await resp.text()]. *)
Definition after_text (thinking : nat) (status : N) (r : settled jsstring)
    (st : state) : progress :=
  match r with
  | Rejected message => throw thinking message st
  | Resolved errText => throw thinking (api_error_message status errText) st
  end.

(** After [await resp.json()]. *)
Definition after_json (thinking : nat) (r : settled jsval) (st : state)
    : progress :=
  match r with
  | Rejected message => throw thinking message st
  | Resolved data =>
      let aiContent := aiContent_of data in
      if negb (truthy aiContent) then throw thinking no_content_message st
      else
        let st := remove_thinking thinking st in
        let st := appendMessage aiContent "ai" None st in
        let st := push (MkTurn assistant aiContent) st in
        Finished (finally_block st)
  end.

(** ** One submit cycle *)

(** How the service and the network behave for one request. *)
Record remote := MkRemote {
  fetched : settled response;
  bodyText : settled jsstring;
  bodyJson : settled jsval
}.

(** The continuations of a suspended handler, run to its end. *)
Definition complete (rem : remote) (p : progress) : state :=
  match p with
  | Finished st => st
  | Waiting _ thinking st =>
      match after_fetch thinking (fetched rem) st with
      | Finished st => st
      | Waiting (AwaitText status) thinking st =>
          match after_text thinking status (bodyText rem) st with
          | Finished st | Waiting _ _ st => st
          end
      | Waiting _ thinking st =>
          match after_json thinking (bodyJson rem) st with
          | Finished st | Waiting _ _ st => st
          end
      end
  end.

(** [submit rawText]: the text is in the input field, the form is
    submitted, and the handler runs until it returns. *)
Definition submit (rawText : jsstring) (rem : remote) (st : state) : state :=
  complete rem (handler_start (set_inputValue rawText st)).

(** The exit of the handler that a cycle takes, read off the conditions of
    the handler in their order: the guard on the trimmed text, the check of
    the key, the result of [fetch], [resp.ok], the body and the content. *)
Inductive outcome :=
| Ignored
| Succeeded (aiContent : jsval)
| Failed (message : jsstring).

Definition outcome_of (rawText : jsstring) (rem : remote) (st : state) : outcome :=
  if jsstring_eqb (trim rawText) [] then Ignored
  else if negb (OPENAI_KEY_PRESENT st) then Failed missing_key_message
  else
    match fetched rem with
    | Rejected message => Failed message
    | Resolved resp =>
        if negb (ok resp) then
          match bodyText rem with
          | Rejected message => Failed message
          | Resolved errText => Failed (api_error_message (status resp) errText)
          end
        else
          match bodyJson rem with
          | Rejected message => Failed message
          | Resolved data =>
              if truthy (aiContent_of data) then Succeeded (aiContent_of data)
              else Failed no_content_message
          end
    end.

(** The system Turn that the handler pushes for a text, if any. *)
Definition name_note (text : jsstring) : list Turn :=
  match nameMatch text with
  | Some group1 =>
      [MkTurn system
         (JStr (lit "User's name is " ++ default (lit "undefined") group1
                ++ lit "."))]
  | None => []
  end.

Definition is_ai_bubble (n : node) : bool :=
  match n with
  | Bubble className _ _ => jsstring_eqb className (lit "msg ai")
  | _ => false
  end.

Definition error_bubble (message : jsstring) : node :=
  Bubble (lit "msg ai") None (JStr (lit "Error: " ++ message)).

(** ** The event loop *)

(** A suspended invocation of the handler. *)
Record task := MkTask { task_thinking : nat; task_await : await }.

Global Instance await_eq_dec : EqDecision await.
Proof. solve_decision. Defined.

Global Instance task_eq_dec : EqDecision task.
Proof. solve_decision. Defined.

Record machine := MkMachine { page : state; tasks : list task }.

Inductive event :=
| EInput (s : jsstring)                         (* the user edits the field *)
| ESubmit                                       (* the form is submitted *)
| EFetch (thinking : nat) (r : settled response)
| EText (thinking : nat) (status : N) (r : settled jsstring)
| EJson (thinking : nat) (r : settled jsval).

Definition park (p : progress) (others : list task) : machine :=
  match p with
  | Finished st => MkMachine st others
  | Waiting a thinking st => MkMachine st (others ++ [MkTask thinking a])
  end.

Definition without (t : task) (ts : list task) : list task :=
  filter (fun u => u <> t) ts.

(** One turn of the event loop; [None] when the event cannot happen: a
    disabled field takes no input, and a promise settles only for the
    handler that awaits it. *)
Definition step (m : machine) (e : event) : option machine :=
  match e with
  | EInput s =>
      if inputDisabled (page m) then None
      else Some (MkMachine (set_inputValue s (page m)) (tasks m))
  | ESubmit => Some (park (handler_start (page m)) (tasks m))
  | EFetch thinking r =>
      let t := MkTask thinking AwaitFetch in
      if bool_decide (t ∈ tasks m)
      then Some (park (after_fetch thinking r (page m)) (without t (tasks m)))
      else None
  | EText thinking status r =>
      let t := MkTask thinking (AwaitText status) in
      if bool_decide (t ∈ tasks m)
      then Some (park (after_text thinking status r (page m))
                   (without t (tasks m)))
      else None
  | EJson thinking r =>
      let t := MkTask thinking AwaitJson in
      if bool_decide (t ∈ tasks m)
      then Some (park (after_json thinking r (page m)) (without t (tasks m)))
      else None
  end.

Fixpoint run (m : machine) (es : list event) : option machine :=
  match es with
  | [] => Some m
  | e :: rest =>
      match step m e with
      | Some m' => run m' rest
      | None => None
      end
  end.

(** The states the page can be in: after loading, and after any event. *)
Inductive reachable : machine -> Prop :=
| reachable_load key st :
    load true key = Some st -> reachable (MkMachine st [])
| reachable_step m e m' :
    reachable m -> step m e = Some m' -> reachable m'.

(** ** What a cycle does, path by path *)

(** The Turns that a cycle pushes. *)
Definition turns_of (rawText : jsstring) (rem : remote) (st : state) : list Turn :=
  match outcome_of rawText rem st with
  | Ignored => []
  | Failed _ =>
      name_note (trim rawText) ++ [MkTurn user (JStr (trim rawText))]
  | Succeeded aiContent =>
      name_note (trim rawText)
      ++ [MkTurn user (JStr (trim rawText)); MkTurn assistant aiContent]
  end.

(** The calls of [fetch] of a cycle. *)
Definition sent (rawText : jsstring) (st : state) : list request :=
  if jsstring_eqb (trim rawText) [] then []
  else if negb (OPENAI_KEY_PRESENT st) then []
  else
    [MkRequest (lit "https://api.openai.com/v1/chat/completions") (lit "POST")
       [(lit "Content-Type", lit "application/json");
        (lit "Authorization",
         lit "Bearer " ++ default (lit "undefined") (OPENAI_API_KEY st))]
       (MkPayload (lit "gpt-4o")
          (messages st ++ name_note (trim rawText)
           ++ [MkTurn user (JStr (trim rawText))])
          600)].

(** The assistant bubble that a cycle adds to the window. *)
Definition shown (rawText : jsstring) (rem : remote) (st : state) : list node :=
  match outcome_of rawText rem st with
  | Ignored => []
  | Succeeded aiContent => [Bubble (lit "msg ai") None aiContent]
  | Failed message => [error_bubble message]
  end.

(** An assistant Turn with a content that counts as false is what the
    handler never pushes. *)
Definition sound_turn (t : Turn) : Prop :=
  role t = assistant -> truthy (content t) = true.

(** The state in which a run of handler code leaves the page. *)
Definition state_of (p : progress) : state :=
  match p with
  | Finished st | Waiting _ _ st => st
  end.

(** The events of one cycle, in their order. *)
Definition cycle_events (rawText : jsstring) (rem : remote) (st : state)
    : list event :=
  let thinking := nextId st in
  [EInput rawText; ESubmit]
  ++ match outcome_of rawText rem st with
     | Ignored => []
     | _ =>
         if negb (OPENAI_KEY_PRESENT st) then []
         else
           EFetch thinking (fetched rem)
           :: match fetched rem with
              | Rejected _ => []
              | Resolved resp =>
                  if negb (ok resp)
                  then [EText thinking (status resp) (bodyText rem)]
                  else [EJson thinking (bodyJson rem)]
              end
     end.

(** The page is idle, with the field enabled and no handler suspended,
    or busy, with the field disabled and cleared and one handler
    suspended. *)
Definition idle_or_busy (m : machine) : Prop :=
  (tasks m = [] /\ inputDisabled (page m) = false)
  \/ (exists t, tasks m = [t]
                /\ inputDisabled (page m) = true
                /\ inputValue (page m) = []).

(** ** Sample pages and services *)

Definition page_without_key : state := start None.

Definition page_with_key : state := start (Some (lit "sk-test")).

(** A response envelope whose first choice carries the given content. *)
Definition envelope (content : jsval) : jsval :=
  JObj [(lit "id", JStr (lit "chatcmpl-1"));
        (lit "choices",
         JArr [JObj [(lit "index", JNum (S754_zero false));
                     (lit "message",
                      JObj [(lit "role", JStr (lit "assistant"));
                            (lit "content", content)])]])].

Definition service_replies (content : jsval) : remote :=
  MkRemote (Resolved (MkResponse 200)) (Resolved []) (Resolved (envelope content)).

Definition service_refuses (status : N) (errText : jsstring) : remote :=
  MkRemote (Resolved (MkResponse status)) (Resolved errText)
    (Rejected (lit "Unexpected token s in JSON at position 0")).

Definition network_down : remote :=
  MkRemote (Rejected (lit "Failed to fetch")) (Rejected (lit "Failed to fetch"))
    (Rejected (lit "Failed to fetch")).

(** ** Predicates for the further properties *)

Definition isAsciiLetter (c : N) : bool :=
  (65 <=? c) && (c <=? 90) || (97 <=? c) && (c <=? 122).

(** A text that is not empty and has no white space at either end. *)
Definition is_trimmed (s : jsstring) : bool :=
  match s with
  | [] => false
  | c :: _ => negb (isWhiteSpace c) && negb (isWhiteSpace (List.last s c))
  end.

(** The handler from the match of the name to the thinking indicator
    (the statements before the try block), for a text that is not
    blank. *)
Definition prepared (st : state) : state :=
  let text := trim (inputValue st) in
  let st :=
    match nameMatch text with
    | Some group1 =>
        let st := set_userName group1 st in
        push (MkTurn system
                (JStr (lit "User's name is "
                       ++ default (lit "undefined") (userName st)
                       ++ lit "."))) st
    | None => st
    end in
  let st := appendMessage (JStr text) "user" (Some (display_name st)) st in
  let st := push (MkTurn user (JStr text)) st in
  let st := set_inputDisabled true (set_inputValue [] st) in
  let st := showLatestQuestion text st in
  let thinking := nextId st in
  appendChild (Thinking thinking) (set_nextId (S thinking) st).

(** What one event does to a page that is idle or busy with one handler:
    nothing but to the text of the field; a request goes out; the
    submission fails for want of a key; the pending request fails; the
    pending request is answered. *)
Inductive effect (m m' : machine) : Prop :=
| effect_quiet v :
    page m' = set_inputValue v (page m) ->
    map task_thinking (tasks m') = map task_thinking (tasks m) ->
    effect m m'
| effect_sent :
    tasks m = [] ->
    trim (inputValue (page m)) <> [] ->
    OPENAI_KEY_PRESENT (page m) = true ->
    page m'
    = set_requests
        (requests (page m) ++ [completion_request (prepared (page m))])
        (prepared (page m)) ->
    tasks m' = [MkTask (nextId (page m)) AwaitFetch] ->
    effect m m'
| effect_refused :
    tasks m = [] ->
    trim (inputValue (page m)) <> [] ->
    OPENAI_KEY_PRESENT (page m) = false ->
    page m'
    = finally_block
        (catch_block (nextId (page m)) missing_key_message
           (prepared (page m))) ->
    tasks m' = [] ->
    effect m m'
| effect_failed t message :
    tasks m = [t] ->
    page m'
    = finally_block (catch_block (task_thinking t) message (page m)) ->
    tasks m' = [] ->
    effect m m'
| effect_replied t aiContent :
    tasks m = [t] ->
    truthy aiContent = true ->
    page m'
    = finally_block
        (push (MkTurn assistant aiContent)
           (appendMessage aiContent "ai" None
              (remove_thinking (task_thinking t) (page m)))) ->
    tasks m' = [] ->
    effect m m'.

(** The thinking indicators of a window, by the identity of their
    elements. *)
Definition thinking_ids (w : list node) : list nat :=
  omap (fun n => match n with Thinking i => Some i | _ => None end) w.

(** The texts of the latest-question blocks of a window. *)
Definition latest_question_texts (w : list node) : list jsstring :=
  omap (fun n => match n with LatestQuestion t => Some t | _ => None end) w.

Definition user_text (t : Turn) : option jsstring :=
  match role t, content t with
  | user, JStr s => Some s
  | _, _ => None
  end.

(** The text of the last user Turn. *)
Definition last_user_text (l : list Turn) : option jsstring :=
  last (omap user_text l).

(** The texts of the user bubbles of a window, in their order. *)
Definition user_bubble_texts (w : list node) : list jsval :=
  omap (fun n =>
          match n with
          | Bubble className _ text =>
              if jsstring_eqb className (lit "msg user") then Some text
              else None
          | _ => None
          end) w.

(** The contents of the user Turns, in their order. *)
Definition user_turn_contents (l : list Turn) : list jsval :=
  omap (fun t => match role t with user => Some (content t) | _ => None end) l.

Definition is_assistant (t : Turn) : bool :=
  match role t with assistant => true | _ => false end.

(** The shape of the requests of the script for a given key. *)
Definition authorized (key : option jsstring) (r : request) : Prop :=
  exists k,
    key = Some k /\ k <> []
    /\ url r = lit "https://api.openai.com/v1/chat/completions"
    /\ method r = lit "POST"
    /\ headers r = [(lit "Content-Type", lit "application/json");
                    (lit "Authorization", lit "Bearer " ++ k)]
    /\ body_model (body r) = lit "gpt-4o"
    /\ body_max_tokens (body r) = 600.

(** The Turns that the script can push: the prompt, a name note with a
    word of letters, a user Turn with a trimmed text, an assistant Turn
    with a content that counts as true. *)
Definition wf_turn (t : Turn) : Prop :=
  match role t with
  | system =>
      content t = JStr SYSTEM_PROMPT
      \/ exists X,
           content t = JStr (lit "User's name is " ++ X ++ lit ".")
           /\ (2 <= length X)%nat
           /\ Forall (fun ch => isAsciiLetter ch = true) X
  | user => exists s, content t = JStr s /\ is_trimmed s = true
  | assistant => truthy (content t) = true
  end.

(** Every assistant Turn after the greeting comes directly after a user
    Turn. *)
Definition replies_follow (l : list Turn) : Prop :=
  forall i t,
    l !! S i = Some t -> role t = assistant ->
    i = 0%nat \/ exists u, l !! i = Some u /\ role u = user.

(** [typeof OPENAI_API_KEY !== 'undefined' && !!OPENAI_API_KEY], for a key
    that is a string when it is defined. *)
Definition key_present (key : option jsstring) : bool :=
  match key with
  | Some k => negb (jsstring_eqb k [])
  | None => false
  end.

(** The page with a key after "Hi" was typed and submitted, the request
    pending. *)
Definition asking : machine :=
  park (handler_start (set_inputValue (lit "Hi") page_with_key)) [].

Definition is_user_bubble (n : node) : bool :=
  match n with
  | Bubble className _ _ => jsstring_eqb className (lit "msg user")
  | _ => false
  end.

(** ** Reading a text *)






Arguments lit : simpl never.
Arguments trim : simpl never.
Arguments nameMatch : simpl never.
Arguments decimal : simpl never.
Arguments jsstring_eqb : simpl never.
Arguments aiContent_of : simpl never.
Arguments truthy : simpl never.
Arguments display_name : simpl never.
Arguments ok : simpl never.
Arguments without : simpl never.

(** ** Properties of one cycle *)

Ltac unfold_cycle :=
  unfold submit, turns_of, outcome_of, complete, handler_start, after_fetch,
    after_text, after_json, throw, name_note; cbn.

(** One goal for each path through the handler. *)
Ltac split_cycle rawText rem st :=
  unfold_cycle;
  destruct (jsstring_eqb (trim rawText) []) eqn:Etext; cbn;
  [| destruct (nameMatch (trim rawText)) as [group1|] eqn:Ename; cbn;
     (destruct (OPENAI_KEY_PRESENT st) eqn:Ekey; cbn;
      [ destruct rem as [[resp|m1] [errText|m2] [data|m3]]; cbn;
        try (destruct (ok resp) eqn:Eok; cbn);
        try (destruct (truthy (aiContent_of data)) eqn:Etruthy; cbn)
      |])].

Lemma jsstring_eqb_nil (s : jsstring) : jsstring_eqb s [] = true <-> s = [].
Proof. unfold jsstring_eqb. apply bool_decide_eq_true. Qed.

Lemma jsstring_eqb_nil_false (s : jsstring) :
  jsstring_eqb s [] = false <-> s <> [].
Proof. unfold jsstring_eqb. apply bool_decide_eq_false. Qed.

Lemma submit_messages rawText rem st :
  messages (submit rawText rem st) = messages st ++ turns_of rawText rem st.
Proof.
  split_cycle rawText rem st;
    rewrite <- ?app_assoc, ?app_nil_r; reflexivity.
Qed.

Lemma submit_requests rawText rem st :
  requests (submit rawText rem st) = requests st ++ sent rawText st.
Proof.
  unfold sent.
  split_cycle rawText rem st; unfold completion_request; cbn;
    rewrite <- ?app_assoc, ?app_nil_r; reflexivity.
Qed.

Lemma submit_consoleErrors rawText rem st :
  consoleErrors (submit rawText rem st)
  = consoleErrors st
    ++ match outcome_of rawText rem st with
       | Failed message => [message]
       | _ => []
       end.
Proof.
  split_cycle rawText rem st; rewrite ?app_nil_r; reflexivity.
Qed.

Lemma submit_ignored rawText rem st :
  trim rawText = [] -> submit rawText rem st = set_inputValue rawText st.
Proof.
  intros H. unfold submit, handler_start. cbn.
  rewrite H. reflexivity.
Qed.

Lemma submit_inputDisabled rawText rem st :
  trim rawText <> [] -> inputDisabled (submit rawText rem st) = false.
Proof.
  intros H%jsstring_eqb_nil_false.
  split_cycle rawText rem st; congruence.
Qed.

Lemma submit_OPENAI_KEY_PRESENT rawText rem st :
  OPENAI_KEY_PRESENT (submit rawText rem st) = OPENAI_KEY_PRESENT st.
Proof. split_cycle rawText rem st; congruence. Qed.

(** *** The chat window after a cycle *)

Lemma msg_ai : lit "msg " ++ lit "ai" = lit "msg ai".
Proof. reflexivity. Qed.

Lemma user_bubble_not_ai name text :
  is_ai_bubble (Bubble (lit "msg " ++ lit "user") name text) = false.
Proof. reflexivity. Qed.

Lemma filter_remove_first (p q : node -> bool) (w : list node) :
  (forall n, p n = true -> q n = false) ->
  List.filter q (remove_first p w) = List.filter q w.
Proof.
  intros Hpq. induction w as [|n w IH]; simpl; [reflexivity|].
  destruct (p n) eqn:Hp.
  - rewrite (Hpq n Hp). reflexivity.
  - simpl. rewrite IH. reflexivity.
Qed.

Lemma latest_question_not_ai n :
  is_latest_question n = true -> is_ai_bubble n = false.
Proof. destruct n; simpl; congruence. Qed.

Lemma thinking_not_ai id n : is_thinking id n = true -> is_ai_bubble n = false.
Proof. destruct n; simpl; congruence. Qed.

Ltac ai_bubbles :=
  repeat first
    [ rewrite List.filter_app
    | rewrite (filter_remove_first _ _ _ (thinking_not_ai _))
    | rewrite (filter_remove_first _ _ _ latest_question_not_ai) ];
  cbn [List.filter is_ai_bubble]; rewrite ?user_bubble_not_ai, ?msg_ai;
  cbn [List.filter is_ai_bubble];
  change (jsstring_eqb (lit "msg ai") (lit "msg ai")) with true;
  cbn iota; rewrite ?app_nil_r.

Lemma submit_ai_bubbles rawText rem st :
  List.filter is_ai_bubble (chatWindow (submit rawText rem st))
  = List.filter is_ai_bubble (chatWindow st) ++ shown rawText rem st.
Proof.
  unfold shown, error_bubble.
  split_cycle rawText rem st; ai_bubbles; try reflexivity.
Qed.

Lemma last_snoc {A} (l : list A) (x : A) : last (l ++ [x]) = Some x.
Proof. apply last_snoc. Qed.

Lemma submit_last_shown rawText rem st message :
  outcome_of rawText rem st = Failed message ->
  last (chatWindow (submit rawText rem st)) = Some (error_bubble message).
Proof.
  unfold error_bubble.
  split_cycle rawText rem st; intros [= <-] || intros [=];
    rewrite msg_ai; apply last_snoc.
Qed.

(** ** Properties of the pattern *)

Lemma star_calls_continuation ic cs bef aft cap k y :
  star ic cs bef aft cap k = Some y ->
  exists x', k x' = Some y /\ capture x' = cap.
Proof.
  revert bef. induction aft as [|c rest IH]; intros bef; simpl.
  - intros H. eexists. split; [exact H|reflexivity].
  - destruct (charset_match ic cs c).
    + destruct (star ic cs (c :: bef) rest cap k) eqn:E.
      * intros [= ->]. apply (IH _ E).
      * intros H. eexists. split; [exact H|reflexivity].
    + intros H. eexists. split; [exact H|reflexivity].
Qed.

(** A match is always the answer of the continuation. *)
Lemma rmatch_calls_continuation ic r :
  forall x k y, rmatch ic r x k = Some y -> exists x', k x' = Some y.
Proof.
  induction r as [|cs|cs| |a IHa b IHb|a IHa b IHb|a IHa]; intros x k y; simpl.
  - eauto.
  - destruct (after x) as [|c rest]; [discriminate|].
    destruct (charset_match ic cs c); [eauto|discriminate].
  - destruct (after x) as [|c rest]; [discriminate|].
    destruct (charset_match ic cs c); [|discriminate].
    intros H. apply star_calls_continuation in H as (x' & H & _). eauto.
  - destruct (xorb _ _); [eauto|discriminate].
  - intros H. apply IHa in H as (x1 & H). apply IHb in H. exact H.
  - destruct (rmatch ic a x k) eqn:E.
    + intros [= ->]. apply (IHa _ _ _ E).
    + apply IHb.
  - intros H. apply IHa in H as (x1 & H). eauto.
Qed.

Lemma rmatch_seq ic a b x k y :
  rmatch ic (RSeq a b) x k = Some y -> exists x', rmatch ic b x' k = Some y.
Proof. simpl. apply rmatch_calls_continuation. Qed.

Lemma rmatch_group ic a x k y :
  rmatch ic (RGroup a) x k = Some y ->
  exists x' X, k (MState (before x') (after x') (Some X)) = Some y.
Proof.
  simpl. intros H. apply rmatch_calls_continuation in H as (x' & H). eauto.
Qed.

Lemma rmatch_wordb ic x y :
  rmatch ic RWordB x Some = Some y -> y = x.
Proof. simpl. destruct (xorb _ _); congruence. Qed.

Lemma nameRegex_captures x y :
  rmatch true nameRegex x Some = Some y -> exists X, capture y = Some X.
Proof.
  unfold nameRegex. intros H.
  apply rmatch_seq in H as (x1 & H).
  apply rmatch_seq in H as (x2 & H).
  apply rmatch_seq in H as (x3 & H).
  change (rmatch true (RSeq ?a ?b) x3 Some)
    with (rmatch true a x3 (fun y => rmatch true b y Some)) in H.
  apply rmatch_group in H as (x4 & X & H).
  apply (rmatch_wordb true) in H. subst y. simpl. eauto.
Qed.

Lemma exec_from_nameRegex bef aft y :
  exec_from true nameRegex bef aft = Some y -> exists X, capture y = Some X.
Proof.
  revert bef. induction aft as [|c rest IH]; intros bef; cbn [exec_from].
  - destruct (rmatch true nameRegex (MState bef [] None) Some) as [z|] eqn:E;
      [|discriminate].
    intros [= ->]. apply (nameRegex_captures _ _ E).
  - destruct (rmatch true nameRegex (MState bef (c :: rest) None) Some)
      as [z|] eqn:E; [|apply IH].
    intros [= ->]. apply (nameRegex_captures _ _ E).
Qed.

(** Group 1 of the name pattern takes part in every match, so
    [nameMatch[1]] is a string. *)
Lemma nameMatch_group1 text group1 :
  nameMatch text = Some group1 -> exists X, group1 = Some X.
Proof.
  unfold nameMatch, String_match.
  destruct (exec_from true nameRegex [] text) as [y|] eqn:E; [|discriminate].
  intros [= <-]. apply (exec_from_nameRegex _ _ _ E).
Qed.

(** ** Properties of the event loop *)

Lemma page_park p ts : page (park p ts) = state_of p.
Proof. destruct p; reflexivity. Qed.

Lemma handler_start_appends st :
  exists new,
    messages (state_of (handler_start st)) = messages st ++ new
    /\ Forall sound_turn new.
Proof.
  unfold handler_start, throw, name_note.
  destruct (jsstring_eqb (trim (inputValue st)) []); cbn.
  { exists []. rewrite app_nil_r. split; [reflexivity|constructor]. }
  eexists (name_note (trim (inputValue st))
           ++ [MkTurn user (JStr (trim (inputValue st)))]).
  unfold name_note. split.
  - destruct (nameMatch (trim (inputValue st))); cbn;
      destruct (OPENAI_KEY_PRESENT st); cbn;
      rewrite <- ?app_assoc; reflexivity.
  - apply Forall_app. split.
    + destruct (nameMatch _); repeat constructor; discriminate.
    + repeat constructor; discriminate.
Qed.

Lemma after_fetch_messages thinking r st :
  messages (state_of (after_fetch thinking r st)) = messages st.
Proof.
  unfold after_fetch, throw. destruct r as [resp|m]; cbn; [|reflexivity].
  destruct (ok resp); reflexivity.
Qed.

Lemma after_text_messages thinking status r st :
  messages (state_of (after_text thinking status r st)) = messages st.
Proof. destruct r; reflexivity. Qed.

Lemma after_json_appends thinking r st :
  exists new,
    messages (state_of (after_json thinking r st)) = messages st ++ new
    /\ Forall sound_turn new.
Proof.
  unfold after_json, throw. destruct r as [data|m]; cbn.
  - destruct (truthy (aiContent_of data)) eqn:E; cbn.
    + eexists. split; [reflexivity|]. repeat constructor. intros _. exact E.
    + exists []. rewrite app_nil_r. split; [reflexivity|constructor].
  - exists []. rewrite app_nil_r. split; [reflexivity|constructor].
Qed.

(** Every event leaves the Turns in place and at most adds some at the
    end. *)
Lemma step_appends m e m' :
  step m e = Some m' ->
  exists new,
    messages (page m') = messages (page m) ++ new /\ Forall sound_turn new.
Proof.
  assert (forall st : state,
    exists new, messages st = messages st ++ new /\ Forall sound_turn new)
    as Hsame.
  { intros st. exists []. rewrite app_nil_r. split; [reflexivity|constructor]. }
  destruct e as [s| |thinking r|thinking status r|thinking r]; simpl.
  - destruct (inputDisabled (page m)); [discriminate|].
    intros [= <-]. apply (Hsame (page m)).
  - intros [= <-]. rewrite page_park. apply handler_start_appends.
  - case_bool_decide; [|discriminate]. intros [= <-].
    rewrite page_park, after_fetch_messages. apply Hsame.
  - case_bool_decide; [|discriminate]. intros [= <-].
    rewrite page_park, after_text_messages. apply Hsame.
  - case_bool_decide; [|discriminate]. intros [= <-].
    rewrite page_park. apply after_json_appends.
Qed.

Lemma load_messages key st :
  load true key = Some st ->
  messages st = [MkTurn system (JStr SYSTEM_PROMPT);
                 MkTurn assistant (JStr initialText)].
Proof. intros [= <-]. reflexivity. Qed.

Lemma reachable_first_turn m :
  reachable m ->
  messages (page m) !! 0%nat = Some (MkTurn system (JStr SYSTEM_PROMPT)).
Proof.
  induction 1 as [key st Hload|m e m' _ IH Hstep].
  - simpl. rewrite (load_messages _ _ Hload). reflexivity.
  - apply step_appends in Hstep as (new & -> & _).
    apply lookup_app_l_Some. exact IH.
Qed.

Lemma reachable_sound_turns m :
  reachable m -> Forall sound_turn (messages (page m)).
Proof.
  induction 1 as [key st Hload|m e m' _ IH Hstep].
  - simpl. rewrite (load_messages _ _ Hload).
    repeat constructor; discriminate.
  - apply step_appends in Hstep as (new & -> & Hnew).
    apply Forall_app. split; assumption.
Qed.

Lemma settle_alone (t : task) :
  bool_decide (t ∈ [t]) = true /\ without t [t] = [].
Proof.
  split.
  - apply bool_decide_eq_true. simpl. apply list_elem_of_here.
  - unfold without. rewrite filter_cons_False; [reflexivity|].
    intros H. apply H. reflexivity.
Qed.

(** A cycle is a run of the event loop: from an idle page, the events of
    the cycle lead to the state that [submit] computes, with no handler
    left suspended. *)
Lemma submit_run rawText rem st :
  inputDisabled st = false ->
  run (MkMachine st []) (cycle_events rawText rem st)
  = Some (MkMachine (submit rawText rem st) []).
Proof.
  intros Hidle. unfold cycle_events. cbn. rewrite Hidle. cbn.
  split_cycle rawText rem st; try reflexivity.
  all: repeat (progress (rewrite ?(proj1 (settle_alone _)),
                            ?(proj2 (settle_alone _)), ?Eok, ?Etruthy; cbn));
    reflexivity.
Qed.

(** The catch block runs exactly in the cycles that [outcome_of] calls
    failed, with the message it names. *)
Lemma failed_iff_error_logged rawText rem st message :
  outcome_of rawText rem st = Failed message
  <-> consoleErrors (submit rawText rem st) = consoleErrors st ++ [message].
Proof.
  rewrite submit_consoleErrors. split.
  - intros ->. reflexivity.
  - destruct (outcome_of rawText rem st); intros H%app_inv_head;
      congruence.
Qed.

Lemma handler_start_blank st :
  trim (inputValue st) = [] -> handler_start st = Finished st.
Proof. intros H. unfold handler_start. rewrite H. reflexivity. Qed.

Lemma handler_start_field st :
  match handler_start st with
  | Finished st' => inputDisabled st' = inputDisabled st
                    \/ inputDisabled st' = false
  | Waiting _ _ st' => inputDisabled st' = true /\ inputValue st' = []
  end.
Proof.
  unfold handler_start, throw.
  destruct (jsstring_eqb (trim (inputValue st)) []); cbn; [left; reflexivity|].
  destruct (nameMatch (trim (inputValue st))); cbn;
    destruct (OPENAI_KEY_PRESENT st); cbn; auto.
Qed.

Lemma after_fetch_field thinking r st :
  match after_fetch thinking r st with
  | Finished st' => inputDisabled st' = false
  | Waiting _ _ st' => st' = st
  end.
Proof.
  unfold after_fetch, throw. destruct r as [resp|m]; cbn; [|reflexivity].
  destruct (ok resp); reflexivity.
Qed.

Lemma after_text_field thinking status r st :
  exists st', after_text thinking status r st = Finished st'
              /\ inputDisabled st' = false.
Proof. destruct r; eexists; split; reflexivity. Qed.

Lemma after_json_field thinking r st :
  exists st', after_json thinking r st = Finished st'
              /\ inputDisabled st' = false.
Proof.
  unfold after_json, throw. destruct r as [data|m].
  - destruct (truthy (aiContent_of data)); eexists; split; reflexivity.
  - eexists; split; reflexivity.
Qed.

Lemma trim_nil : trim [] = [].
Proof. reflexivity. Qed.

(** One request at a time: an event keeps the page idle or busy with a
    single suspended handler. *)
Lemma step_idle_or_busy m e m' :
  idle_or_busy m -> step m e = Some m' -> idle_or_busy m'.
Proof.
  unfold idle_or_busy. intros Hm.
  destruct e as [s| |thinking r|thinking status r|thinking r]; simpl.
  - destruct (inputDisabled (page m)) eqn:Hd; [discriminate|].
    intros [= <-]. left. destruct Hm as [[Ht _]|(t & _ & Hb & _)].
    + split; [exact Ht|exact Hd].
    + congruence.
  - intros [= <-]. destruct Hm as [[Ht Hd]|(t & Ht & Hd & Hv)].
    + pose proof (handler_start_field (page m)) as H.
      destruct (handler_start (page m)) as [st'|a th st']; simpl in *.
      * left. split; [exact Ht|]. destruct H; congruence.
      * right. exists (MkTask th a). rewrite Ht. destruct H. repeat split; auto.
    + rewrite handler_start_blank by (rewrite Hv; apply trim_nil).
      right. exists t. repeat split; assumption.
  - case_bool_decide as Hin; [|discriminate]. intros [= <-].
    destruct Hm as [[Ht _]|(t & Ht & Hd & Hv)].
    { rewrite Ht in Hin. apply elem_of_nil in Hin. contradiction. }
    rewrite Ht in Hin |- *. apply list_elem_of_singleton in Hin. subst t.
    rewrite (proj2 (settle_alone _)).
    pose proof (after_fetch_field thinking r (page m)) as H.
    destruct (after_fetch thinking r (page m)) as [st'|a th st']; simpl in *.
    + left. split; [reflexivity|exact H].
    + right. subst st'. eexists. repeat split; assumption.
  - case_bool_decide as Hin; [|discriminate]. intros [= <-].
    destruct Hm as [[Ht _]|(t & Ht & Hd & Hv)].
    { rewrite Ht in Hin. apply elem_of_nil in Hin. contradiction. }
    rewrite Ht in Hin |- *. apply list_elem_of_singleton in Hin. subst t.
    rewrite (proj2 (settle_alone _)).
    destruct (after_text_field thinking status r (page m)) as (st' & -> & H).
    left. split; [reflexivity|exact H].
  - case_bool_decide as Hin; [|discriminate]. intros [= <-].
    destruct Hm as [[Ht _]|(t & Ht & Hd & Hv)].
    { rewrite Ht in Hin. apply elem_of_nil in Hin. contradiction. }
    rewrite Ht in Hin |- *. apply list_elem_of_singleton in Hin. subst t.
    rewrite (proj2 (settle_alone _)).
    destruct (after_json_field thinking r (page m)) as (st' & -> & H).
    left. split; [reflexivity|exact H].
Qed.

Lemma reachable_idle_or_busy m : reachable m -> idle_or_busy m.
Proof.
  induction 1 as [key st Hload|m e m' _ IH Hstep].
  - injection Hload as <-. left. split; reflexivity.
  - apply (step_idle_or_busy _ _ _ IH Hstep).
Qed.

(** ** The scenarios *)

Lemma nameMatch_nil : nameMatch [] = None.
Proof. reflexivity. Qed.

Lemma outcome_ignored rawText rem st :
  outcome_of rawText rem st = Ignored <-> trim rawText = [].
Proof.
  rewrite <- jsstring_eqb_nil.
  split_cycle rawText rem st; split; congruence.
Qed.

(** Scenario A: a reply is pushed after the user Turn. *)
Example scenario_reply :
  messages (submit (lit "Hello") (service_replies (JStr (lit "Hi there!")))
              page_with_key)
  = messages page_with_key
    ++ [MkTurn user (JStr (lit "Hello"));
        MkTurn assistant (JStr (lit "Hi there!"))].
Proof. reflexivity. Qed.

(** Scenario C: the name is noted before the user Turn. *)
Example scenario_name :
  messages (submit (lit "My name is Alex, what shampoo should I use?")
              network_down page_without_key)
  = messages page_without_key
    ++ [MkTurn system (JStr (lit "User's name is Alex."));
        MkTurn user (JStr (lit "My name is Alex, what shampoo should I use?"))].
Proof. reflexivity. Qed.

(** Scenario E: the window shows the status and the body. *)
Example scenario_status :
  last (chatWindow (submit (lit "Hi") (service_refuses 500 (lit "server error"))
                      page_with_key))
  = Some (Bubble (lit "msg ai") None
            (JStr (lit "Error: API error: 500 server error"))).
Proof. reflexivity. Qed.

(** ** The decimal rendering and the search in a text *)






(** ** The claims *)

(** C1, as stated, at a page without a key and the text "Hi": the cycle
    ends in the failure path, the Transcript ends with the user Turn, and
    no assistant Turn follows it. *)
Lemma C1_error_is_not_pushed :
  outcome_of (lit "Hi") network_down page_without_key
  = Failed missing_key_message
  /\ messages (submit (lit "Hi") network_down page_without_key)
     = messages page_without_key ++ [MkTurn user (JStr (lit "Hi"))]
  /\ ~ (exists t,
          role t = assistant
          /\ messages (submit (lit "Hi") network_down page_without_key)
             = messages page_without_key
               ++ [MkTurn user (JStr (lit "Hi")); t]).
Proof.
  split; [reflexivity|]. split; [reflexivity|].
  intros (t & _ & H). vm_compute in H. discriminate H.
Qed.

(** C1, amended: a cycle that ends in failure, of whatever kind, pushes
    nothing after the user Turn; the error description goes to the chat
    window, as exactly one assistant bubble, the last child of the window,
    with the text "Error: " and the message. *)
Theorem C1_failure_shows_one_error_bubble rawText rem st message :
  outcome_of rawText rem st = Failed message ->
  messages (submit rawText rem st)
  = messages st ++ name_note (trim rawText)
    ++ [MkTurn user (JStr (trim rawText))]
  /\ List.filter is_ai_bubble (chatWindow (submit rawText rem st))
     = List.filter is_ai_bubble (chatWindow st)
       ++ [Bubble (lit "msg ai") None (JStr (lit "Error: " ++ message))]
  /\ last (chatWindow (submit rawText rem st))
     = Some (Bubble (lit "msg ai") None (JStr (lit "Error: " ++ message))).
Proof.
  intros H. split; [|split].
  - rewrite submit_messages. unfold turns_of. rewrite H. reflexivity.
  - rewrite submit_ai_bubbles. unfold shown. rewrite H. reflexivity.
  - apply submit_last_shown, H.
Qed.

Lemma C1_failure_shows_one_error_bubble_witness :
  messages (submit (lit "Hi") network_down page_with_key)
  = messages page_with_key ++ name_note (trim (lit "Hi"))
    ++ [MkTurn user (JStr (trim (lit "Hi")))]
  /\ List.filter is_ai_bubble
       (chatWindow (submit (lit "Hi") network_down page_with_key))
     = List.filter is_ai_bubble (chatWindow page_with_key)
       ++ [Bubble (lit "msg ai") None
             (JStr (lit "Error: " ++ lit "Failed to fetch"))]
  /\ last (chatWindow (submit (lit "Hi") network_down page_with_key))
     = Some (Bubble (lit "msg ai") None
               (JStr (lit "Error: " ++ lit "Failed to fetch"))).
Proof.
  apply (C1_failure_shows_one_error_bubble (lit "Hi") network_down
           page_with_key (lit "Failed to fetch")).
  reflexivity.
Defined.

(** C2: when the text of the field is empty after trimming, the cycle
    changes nothing: the state is the one in which the text was typed, no
    Turn is pushed and no request is issued. *)
Theorem C2_blank_input_is_ignored rawText rem st :
  trim rawText = [] ->
  submit rawText rem st = set_inputValue rawText st
  /\ messages (submit rawText rem st) = messages st
  /\ requests (submit rawText rem st) = requests st
  /\ chatWindow (submit rawText rem st) = chatWindow st.
Proof.
  intros H. rewrite (submit_ignored _ _ _ H). repeat split.
Qed.

Lemma C2_blank_input_is_ignored_witness :
  submit (lit "  ") network_down page_with_key
  = set_inputValue (lit "  ") page_with_key
  /\ messages (submit (lit "  ") network_down page_with_key)
     = messages page_with_key
  /\ requests (submit (lit "  ") network_down page_with_key)
     = requests page_with_key
  /\ chatWindow (submit (lit "  ") network_down page_with_key)
     = chatWindow page_with_key.
Proof.
  apply (C2_blank_input_is_ignored (lit "  ") network_down page_with_key).
  reflexivity.
Defined.

(** C3: when the trimmed text matches the name pattern, with X the text
    of group 1, the cycle pushes the system Turn "User's name is X." and
    directly after it the user Turn; what follows, if anything, is the
    assistant Turn of the reply, so the note is pushed once. *)
Theorem C3_name_note_precedes_user_turn rawText rem st group1 :
  nameMatch (trim rawText) = Some group1 ->
  exists X tail,
    group1 = Some X
    /\ messages (submit rawText rem st)
       = messages st
         ++ [MkTurn system (JStr (lit "User's name is " ++ X ++ lit "."));
             MkTurn user (JStr (trim rawText))]
         ++ tail
    /\ Forall (fun t => role t = assistant) tail.
Proof.
  intros Hm.
  assert (trim rawText <> []) as Htext.
  { intros E. rewrite E, nameMatch_nil in Hm. discriminate Hm. }
  destruct (nameMatch_group1 _ _ Hm) as [X ->]. exists X.
  rewrite submit_messages. unfold turns_of, name_note. rewrite Hm.
  destruct (outcome_of rawText rem st) as [|aiContent|message] eqn:E.
  - apply outcome_ignored in E. contradiction.
  - exists [MkTurn assistant aiContent]. repeat split.
    repeat constructor.
  - exists []. repeat split. constructor.
Qed.

Lemma C3_name_note_precedes_user_turn_witness :
  exists X tail,
    Some (lit "Alex") = Some X
    /\ messages (submit (lit "My name is Alex, what shampoo should I use?")
                   (service_replies (JStr (lit "Try Elvive.")))
                   page_with_key)
       = messages page_with_key
         ++ [MkTurn system (JStr (lit "User's name is " ++ X ++ lit "."));
             MkTurn user
               (JStr (trim (lit "My name is Alex, what shampoo should I use?")))]
         ++ tail
    /\ Forall (fun t => role t = assistant) tail.
Proof.
  apply (C3_name_note_precedes_user_turn
           (lit "My name is Alex, what shampoo should I use?")
           (service_replies (JStr (lit "Try Elvive."))) page_with_key
           (Some (lit "Alex"))).
  reflexivity.
Defined.

(** C4, at the text "i am tired": the word after the phrase is not
    capitalized, and the pattern matches all the same, because its i flag
    lets [A-Z] take a lower-case letter; "tired" is recorded as the name
    and noted in a system Turn. *)
Theorem C4_lower_case_word_is_taken_as_name :
  nameMatch (lit "i am tired") = Some (Some (lit "tired"))
  /\ userName (submit (lit "i am tired") network_down page_without_key)
     = Some (lit "tired")
  /\ messages (submit (lit "i am tired") network_down page_without_key)
     = messages page_without_key
       ++ [MkTurn system (JStr (lit "User's name is tired."));
           MkTurn user (JStr (lit "i am tired"))].
Proof. repeat split. Qed.

(** C5: without a key, a cycle with a text issues no request and never
    suspends; the user Turn is pushed, and the window ends with the
    bubble "Error: OpenAI API key not found. Create secrets.js and define
    OPENAI_API_KEY.", which is also what the console receives. *)
Theorem C5_missing_key_issues_no_request rawText rem st :
  OPENAI_KEY_PRESENT st = false ->
  trim rawText <> [] ->
  requests (submit rawText rem st) = requests st
  /\ (exists st', handler_start (set_inputValue rawText st) = Finished st')
  /\ messages (submit rawText rem st)
     = messages st ++ name_note (trim rawText)
       ++ [MkTurn user (JStr (trim rawText))]
  /\ last (chatWindow (submit rawText rem st))
     = Some (Bubble (lit "msg ai") None
               (JStr (lit "Error: OpenAI API key not found. Create secrets.js and define OPENAI_API_KEY.")))
  /\ consoleErrors (submit rawText rem st)
     = consoleErrors st
       ++ [lit "OpenAI API key not found. Create secrets.js and define OPENAI_API_KEY."].
Proof.
  intros Hkey Htext.
  assert (outcome_of rawText rem st = Failed missing_key_message) as Hout.
  { unfold outcome_of. apply jsstring_eqb_nil_false in Htext.
    rewrite Htext, Hkey. reflexivity. }
  split; [|split; [|split; [|split]]].
  - rewrite submit_requests. unfold sent. rewrite Hkey.
    destruct (jsstring_eqb (trim rawText) []); apply app_nil_r.
  - unfold handler_start, throw. cbn. apply jsstring_eqb_nil_false in Htext.
    rewrite Htext. destruct (nameMatch (trim rawText)); cbn;
      rewrite Hkey; cbn; eauto.
  - rewrite submit_messages. unfold turns_of. rewrite Hout. reflexivity.
  - rewrite (submit_last_shown _ _ _ _ Hout). reflexivity.
  - rewrite submit_consoleErrors, Hout. reflexivity.
Qed.

Lemma C5_missing_key_issues_no_request_witness :
  requests (submit (lit "Hi") network_down page_without_key)
  = requests page_without_key
  /\ (exists st',
        handler_start (set_inputValue (lit "Hi") page_without_key)
        = Finished st')
  /\ messages (submit (lit "Hi") network_down page_without_key)
     = messages page_without_key ++ name_note (trim (lit "Hi"))
       ++ [MkTurn user (JStr (trim (lit "Hi")))]
  /\ last (chatWindow (submit (lit "Hi") network_down page_without_key))
     = Some (Bubble (lit "msg ai") None
               (JStr (lit "Error: OpenAI API key not found. Create secrets.js and define OPENAI_API_KEY.")))
  /\ consoleErrors (submit (lit "Hi") network_down page_without_key)
     = consoleErrors page_without_key
       ++ [lit "OpenAI API key not found. Create secrets.js and define OPENAI_API_KEY."].
Proof.
  apply (C5_missing_key_issues_no_request (lit "Hi") network_down
           page_without_key).
  - reflexivity.
  - vm_compute. discriminate.
Defined.




(** C7: in every state the page can reach, the first Turn is the system
    Turn with the fixed prompt, and every event keeps the Turns that are
    there, in their places, and only adds Turns at the end. *)
Theorem C7_first_turn_fixed_and_append_only m :
  reachable m ->
  messages (page m) !! 0%nat = Some (MkTurn system (JStr SYSTEM_PROMPT))
  /\ forall e m',
       step m e = Some m' ->
       messages (page m) `prefix_of` messages (page m').
Proof.
  intros Hm. split.
  - apply reachable_first_turn, Hm.
  - intros e m' Hstep. apply step_appends in Hstep as (new & -> & _).
    apply prefix_app_r. reflexivity.
Qed.

Lemma C7_first_turn_fixed_and_append_only_witness :
  messages (page (MkMachine page_with_key [])) !! 0%nat
  = Some (MkTurn system (JStr SYSTEM_PROMPT))
  /\ forall e m',
       step (MkMachine page_with_key []) e = Some m' ->
       messages (page (MkMachine page_with_key [])) `prefix_of`
         messages (page m').
Proof.
  apply (C7_first_turn_fixed_and_append_only (MkMachine page_with_key [])).
  apply (reachable_load (Some (lit "sk-test"))). reflexivity.
Defined.

(** C8: a cycle with a text, whatever the service does, and any cycle
    that starts with the field enabled, ends with the field enabled; the
    page then takes the next input. *)
Theorem C8_field_enabled_after_cycle rawText rem st :
  inputDisabled st = false \/ trim rawText <> [] ->
  inputDisabled (submit rawText rem st) = false
  /\ forall s ts,
       step (MkMachine (submit rawText rem st) ts) (EInput s)
       = Some (MkMachine (set_inputValue s (submit rawText rem st)) ts).
Proof.
  intros H.
  assert (inputDisabled (submit rawText rem st) = false) as Hidle.
  { destruct (decide (trim rawText = [])) as [E|E].
    - rewrite (submit_ignored _ _ _ E). destruct H as [H|H]; [exact H|].
      contradiction.
    - apply submit_inputDisabled, E. }
  split; [exact Hidle|].
  intros s ts. simpl. rewrite Hidle. reflexivity.
Qed.

Lemma C8_field_enabled_after_cycle_witness :
  inputDisabled (submit (lit "Hi") network_down page_with_key) = false
  /\ forall s ts,
       step (MkMachine (submit (lit "Hi") network_down page_with_key) ts)
         (EInput s)
       = Some (MkMachine
                 (set_inputValue s
                    (submit (lit "Hi") network_down page_with_key)) ts).
Proof.
  apply (C8_field_enabled_after_cycle (lit "Hi") network_down page_with_key).
  left. reflexivity.
Defined.

(** C9: a cycle with a text and a key issues one request, a POST whose
    body has the model "gpt-4o", the Turns of the page at that moment (the
    earlier ones, the name note if any, the user Turn) and the limit 600. *)
Theorem C9_one_request_with_the_transcript rawText rem st :
  trim rawText <> [] ->
  OPENAI_KEY_PRESENT st = true ->
  exists req,
    requests (submit rawText rem st) = requests st ++ [req]
    /\ method req = lit "POST"
    /\ body_model (body req) = lit "gpt-4o"
    /\ body_messages (body req)
       = messages st ++ name_note (trim rawText)
         ++ [MkTurn user (JStr (trim rawText))]
    /\ body_max_tokens (body req) = 600.
Proof.
  intros Htext%jsstring_eqb_nil_false Hkey.
  rewrite submit_requests. unfold sent. rewrite Htext, Hkey. cbn.
  eexists. split; [reflexivity|]. repeat split.
Qed.

Lemma C9_one_request_with_the_transcript_witness :
  exists req,
    requests (submit (lit "I'm Zoe") network_down page_with_key)
    = requests page_with_key ++ [req]
    /\ method req = lit "POST"
    /\ body_model (body req) = lit "gpt-4o"
    /\ body_messages (body req)
       = messages page_with_key ++ name_note (trim (lit "I'm Zoe"))
         ++ [MkTurn user (JStr (trim (lit "I'm Zoe")))]
    /\ body_max_tokens (body req) = 600.
Proof.
  apply (C9_one_request_with_the_transcript (lit "I'm Zoe") network_down
           page_with_key).
  - vm_compute. discriminate.
  - reflexivity.
Defined.

(** C10: when the content of the first choice counts as false (the empty
    string, null, a missing path, zero, false), the cycle takes the
    failure path: it pushes nothing after the user Turn, ends the window
    with the bubble "Error: No content in API response." and logs that
    message.  And an assistant Turn with a content that counts as false,
    the empty string among them, is never pushed: not by any cycle,
    whatever the service does, and it is in the Transcript of no state
    that the page can reach. *)
Theorem C10_falsy_content_is_a_failure rawText rem st :
  (forall resp data,
     trim rawText <> [] ->
     OPENAI_KEY_PRESENT st = true ->
     fetched rem = Resolved resp ->
     ok resp = true ->
     bodyJson rem = Resolved data ->
     truthy (aiContent_of data) = false ->
     outcome_of rawText rem st = Failed no_content_message
     /\ messages (submit rawText rem st)
        = messages st ++ name_note (trim rawText)
          ++ [MkTurn user (JStr (trim rawText))]
     /\ last (chatWindow (submit rawText rem st))
        = Some (Bubble (lit "msg ai") None
                  (JStr (lit "Error: No content in API response.")))
     /\ consoleErrors (submit rawText rem st)
        = consoleErrors st ++ [lit "No content in API response."])
  /\ (forall new t,
        messages (submit rawText rem st) = messages st ++ new ->
        t ∈ new ->
        role t = assistant ->
        truthy (content t) = true /\ content t <> JStr [])
  /\ (forall m t,
        reachable m ->
        t ∈ messages (page m) ->
        role t = assistant ->
        truthy (content t) = true /\ content t <> JStr []).
Proof.
  assert (forall t : Turn,
            truthy (content t) = true -> content t <> JStr []) as Hne.
  { intros t Ht E. rewrite E in Ht. discriminate Ht. }
  split; [|split].
  - intros resp data Htext Hkey Hfetch Hok Hjson Hfalsy.
    assert (outcome_of rawText rem st = Failed no_content_message) as Hout.
    { unfold outcome_of. apply jsstring_eqb_nil_false in Htext.
      rewrite Htext, Hkey, Hfetch, Hok, Hjson, Hfalsy. reflexivity. }
    split; [exact Hout|]. split; [|split].
    + rewrite submit_messages. unfold turns_of. rewrite Hout. reflexivity.
    + rewrite (submit_last_shown _ _ _ _ Hout). reflexivity.
    + rewrite submit_consoleErrors, Hout. reflexivity.
  - intros new t Hnew Hin Hrole.
    rewrite submit_messages in Hnew. apply app_inv_head in Hnew. subst new.
    assert (truthy (content t) = true) as Ht.
    { revert Hin. unfold turns_of, name_note.
      split_cycle rawText rem st; intros Hin;
        repeat (apply elem_of_cons in Hin as [->|Hin];
                [try discriminate Hrole; try exact Etruthy|]);
        try (apply elem_of_nil in Hin; contradiction). }
    split; [exact Ht|]. apply Hne, Ht.
  - intros m t Hm Hin Hrole. apply reachable_sound_turns in Hm.
    rewrite Forall_forall in Hm. pose proof (Hm t Hin Hrole) as Ht.
    split; [exact Ht|]. apply Hne, Ht.
Qed.

Lemma C10_falsy_content_is_a_failure_witness :
  outcome_of (lit "Hi") (service_replies (JStr [])) page_with_key
  = Failed no_content_message
  /\ messages (submit (lit "Hi") (service_replies (JStr [])) page_with_key)
     = messages page_with_key ++ name_note (trim (lit "Hi"))
       ++ [MkTurn user (JStr (trim (lit "Hi")))]
  /\ last (chatWindow (submit (lit "Hi") (service_replies (JStr []))
                         page_with_key))
     = Some (Bubble (lit "msg ai") None
               (JStr (lit "Error: No content in API response.")))
  /\ consoleErrors (submit (lit "Hi") (service_replies (JStr []))
                      page_with_key)
     = consoleErrors page_with_key ++ [lit "No content in API response."].
Proof.
  apply (proj1 (C10_falsy_content_is_a_failure (lit "Hi")
                  (service_replies (JStr [])) page_with_key)
           (MkResponse 200) (envelope (JStr []))).
  - vm_compute. discriminate.
  - reflexivity.
  - reflexivity.
  - reflexivity.
  - reflexivity.
  - reflexivity.
Defined.

(** ** Further properties of the pattern and of [trim] *)

Lemma in_range lo hi a : In a (range lo hi) -> lo <= a <= hi.
Proof.
  unfold range. intros H. apply in_map_iff in H as (i & <- & Hi).
  apply in_seq in Hi. lia.
Qed.

Lemma canonicalize_letter a ch :
  (65 <= a <= 90 \/ 97 <= a <= 122) ->
  canonicalize true a = canonicalize true ch ->
  isAsciiLetter ch = true.
Proof.
  unfold canonicalize, isAsciiLetter. simpl. intros Ha.
  destruct (97 <=? a) eqn:A1; destruct (a <=? 122) eqn:A2;
    destruct (97 <=? ch) eqn:C1; destruct (ch <=? 122) eqn:C2; simpl;
    destruct (65 <=? ch) eqn:C3; destruct (ch <=? 90) eqn:C4; simpl;
    try reflexivity; intros E;
    rewrite ?N.leb_le, ?N.leb_gt in *; lia.
Qed.

Lemma upper_class_letter ch :
  charset_match true (CRange 65 90) ch = true -> isAsciiLetter ch = true.
Proof.
  unfold charset_match. intros H.
  apply existsb_exists in H as (a & Ha & E). apply in_range in Ha.
  apply N.eqb_eq in E. apply (canonicalize_letter a); [lia|exact E].
Qed.

Lemma lower_class_letter ch :
  charset_match true (CRange 97 122) ch = true -> isAsciiLetter ch = true.
Proof.
  unfold charset_match. intros H.
  apply existsb_exists in H as (a & Ha & E). apply in_range in Ha.
  apply N.eqb_eq in E. apply (canonicalize_letter a); [lia|exact E].
Qed.

(** The greedy loop hands to the continuation a state that is further in
    the same input by characters of the set. *)
Lemma star_advance ic cs aft :
  forall bef cap k y,
    star ic cs bef aft cap k = Some y ->
    exists c aft',
      k (MState (c ++ bef) aft' cap) = Some y
      /\ aft = rev c ++ aft'
      /\ Forall (fun ch => charset_match ic cs ch = true) c.
Proof.
  induction aft as [|c0 rest IH]; intros bef cap k y; simpl.
  - intros H. exists [], []. repeat split; [exact H|constructor].
  - destruct (charset_match ic cs c0) eqn:Hc.
    + destruct (star ic cs (c0 :: bef) rest cap k) eqn:E.
      * intros [= ->]. apply IH in E as (c & aft' & Hk & -> & Hall).
        exists (c ++ [c0]), aft'. rewrite <- app_assoc. simpl.
        split; [exact Hk|]. split.
        -- rewrite rev_app_distr. reflexivity.
        -- apply Forall_app. split; [exact Hall|]. repeat constructor.
           exact Hc.
      * intros H. exists [], (c0 :: rest).
        repeat split; [exact H|constructor].
    + intros H. exists [], (c0 :: rest). repeat split; [exact H|constructor].
Qed.

(** Every matcher hands to the continuation a state that is further in
    the same input. *)
Lemma rmatch_advance ic r :
  forall x k y,
    rmatch ic r x k = Some y ->
    exists x',
      k x' = Some y
      /\ rev (before x') ++ after x' = rev (before x) ++ after x.
Proof.
  induction r as [|cs|cs| |a IHa b IHb|a IHa b IHb|a IHa]; intros x k y; simpl.
  - eauto.
  - destruct (after x) as [|c rest] eqn:Ha; [discriminate|].
    destruct (charset_match ic cs c); [|discriminate].
    intros H. eexists. split; [exact H|]. simpl.
    rewrite <- app_assoc. reflexivity.
  - destruct (after x) as [|c rest] eqn:Ha; [discriminate|].
    destruct (charset_match ic cs c); [|discriminate].
    intros H. apply star_advance in H as (c' & aft' & Hk & -> & _).
    eexists. split; [exact Hk|]. simpl.
    rewrite rev_app_distr. simpl. rewrite <- !app_assoc. reflexivity.
  - destruct (xorb _ _); [eauto|discriminate].
  - intros H. apply IHa in H as (x1 & H & E1).
    apply IHb in H as (x2 & H & E2). exists x2. split; [exact H|].
    congruence.
  - destruct (rmatch ic a x k) eqn:E.
    + intros [= ->]. apply (IHa _ _ _ E).
    + apply IHb.
  - intros H. apply IHa in H as (x1 & H & E1). eexists. split; [exact H|].
    exact E1.
Qed.

Lemma rmatch_seq_advance ic a b x k y :
  rmatch ic (RSeq a b) x k = Some y ->
  exists x',
    rmatch ic b x' k = Some y
    /\ rev (before x') ++ after x' = rev (before x) ++ after x.
Proof. simpl. apply rmatch_advance. Qed.

(** The group of the name pattern: one character of the first set, then
    one or more of the second, all of them captured. *)
Lemma rmatch_word_group ic U L x k y :
  rmatch ic (RGroup (RSeq (RSet U) (RPlus L))) x k = Some y ->
  exists c0 c1 c aft',
    after x = c0 :: c1 :: rev c ++ aft'
    /\ charset_match ic U c0 = true
    /\ charset_match ic L c1 = true
    /\ Forall (fun ch => charset_match ic L ch = true) c
    /\ k (MState (c ++ c1 :: c0 :: before x) aft'
            (Some (c0 :: c1 :: rev c))) = Some y.
Proof.
  cbn [rmatch before after capture].
  destruct (after x) as [|c0 rest]; [discriminate|].
  destruct (charset_match ic U c0) eqn:H0; [|discriminate].
  destruct rest as [|c1 rest]; [discriminate|].
  destruct (charset_match ic L c1) eqn:H1; [|discriminate].
  intros H. apply star_advance in H as (c & aft' & Hk & -> & Hall).
  exists c0, c1, c, aft'. repeat split; try assumption.
  cbn [before after] in Hk. unfold endIndex in Hk. cbn [before] in Hk.
  replace (length (c ++ c1 :: c0 :: before x) - length (before x))%nat
    with (length (c ++ [c1; c0])) in Hk
    by (rewrite !length_app; simpl; lia).
  replace (c ++ c1 :: c0 :: before x) with ((c ++ [c1; c0]) ++ before x) in Hk
    by (rewrite <- app_assoc; reflexivity).
  rewrite take_app_length, rev_app_distr in Hk. simpl in Hk.
  rewrite <- app_assoc in Hk. exact Hk.
Qed.

Lemma nameRegex_match_shape x y :
  rmatch true nameRegex x Some = Some y ->
  exists X pre post,
    capture y = Some X
    /\ rev (before x) ++ after x = pre ++ X ++ post
    /\ (2 <= length X)%nat
    /\ Forall (fun ch => isAsciiLetter ch = true) X.
Proof.
  unfold nameRegex. intros H.
  apply rmatch_seq_advance in H as (x1 & H & E1).
  apply rmatch_seq_advance in H as (x2 & H & E2).
  apply rmatch_seq_advance in H as (x3 & H & E3).
  change (rmatch true (RSeq ?a ?b) x3 Some)
    with (rmatch true a x3 (fun y => rmatch true b y Some)) in H.
  apply rmatch_word_group in H as (c0 & c1 & c & aft' & Ha & H0 & H1 & Hc & H).
  apply (rmatch_wordb true) in H. subst y.
  exists (c0 :: c1 :: rev c), (rev (before x3)), aft'.
  cbn [capture]. split; [reflexivity|]. split; [|split].
  - rewrite <- E1, <- E2, <- E3, Ha. reflexivity.
  - simpl. lia.
  - constructor; [apply upper_class_letter, H0|].
    constructor; [apply lower_class_letter, H1|].
    apply Forall_rev. eapply Forall_impl; [exact Hc|].
    intros ch. apply lower_class_letter.
Qed.

Lemma exec_from_shape aft :
  forall bef y,
    exec_from true nameRegex bef aft = Some y ->
    exists X pre post,
      capture y = Some X
      /\ rev bef ++ aft = pre ++ X ++ post
      /\ (2 <= length X)%nat
      /\ Forall (fun ch => isAsciiLetter ch = true) X.
Proof.
  induction aft as [|c rest IH]; intros bef y; cbn [exec_from].
  - destruct (rmatch true nameRegex (MState bef [] None) Some) as [z|] eqn:E;
      [|discriminate].
    intros [= ->]. apply (nameRegex_match_shape _ _ E).
  - destruct (rmatch true nameRegex (MState bef (c :: rest) None) Some)
      as [z|] eqn:E.
    + intros [= ->]. apply (nameRegex_match_shape _ _ E).
    + intros H. apply IH in H as (X & pre & post & Hc & E' & Hl & Hall).
      exists X, pre, post. repeat split; try assumption.
      rewrite <- E'. simpl. rewrite <- app_assoc. reflexivity.
Qed.

(** X1: the name that the pattern captures is a piece of the text, of two
    or more characters, all of them ASCII letters. *)
Theorem captured_name_is_a_word_of_the_text text X :
  nameMatch text = Some (Some X) ->
  (2 <= length X)%nat
  /\ Forall (fun ch => isAsciiLetter ch = true) X
  /\ exists pre post, text = pre ++ X ++ post.
Proof.
  unfold nameMatch, String_match.
  destruct (exec_from true nameRegex [] text) as [y|] eqn:E; [|discriminate].
  intros [= Hy].
  apply exec_from_shape in E as (X' & pre & post & Hc & E' & Hl & Hall).
  rewrite Hy in Hc. injection Hc as <-.
  repeat split; try assumption. exists pre, post. exact E'.
Qed.

Lemma captured_name_is_a_word_of_the_text_witness :
  (2 <= length (lit "Alex"))%nat
  /\ Forall (fun ch => isAsciiLetter ch = true) (lit "Alex")
  /\ exists pre post,
       lit "My name is Alex, what shampoo should I use?"
       = pre ++ lit "Alex" ++ post.
Proof.
  apply (captured_name_is_a_word_of_the_text
           (lit "My name is Alex, what shampoo should I use?") (lit "Alex")).
  reflexivity.
Defined.

(** ** The effect of one event *)

Lemma set_inputValue_same st : set_inputValue (inputValue st) st = st.
Proof. destruct st. reflexivity. Qed.

Lemma handler_start_prepared st :
  handler_start st
  = if jsstring_eqb (trim (inputValue st)) [] then Finished st
    else if negb (OPENAI_KEY_PRESENT st)
         then throw (nextId st) missing_key_message (prepared st)
         else Waiting AwaitFetch (nextId st)
                (set_requests
                   (requests st ++ [completion_request (prepared st)])
                   (prepared st)).
Proof.
  unfold handler_start, prepared.
  destruct (jsstring_eqb (trim (inputValue st)) []); [reflexivity|].
  destruct (nameMatch (trim (inputValue st))); reflexivity.
Qed.

Lemma step_effect m e m' :
  idle_or_busy m -> step m e = Some m' -> effect m m'.
Proof.
  intros Hm.
  destruct e as [s| |thinking r|thinking status r|thinking r]; simpl.
  - destruct (inputDisabled (page m)); [discriminate|].
    intros [= <-]. apply (effect_quiet _ _ s); reflexivity.
  - intros [= <-]. rewrite handler_start_prepared.
    destruct (jsstring_eqb (trim (inputValue (page m))) []) eqn:Etext.
    { apply (effect_quiet _ _ (inputValue (page m))); [|reflexivity].
      simpl. symmetry. apply set_inputValue_same. }
    apply jsstring_eqb_nil_false in Etext.
    destruct Hm as [[Ht Hd]|(t & Ht & Hd & Hv)].
    2:{ rewrite Hv in Etext. contradiction Etext. reflexivity. }
    destruct (OPENAI_KEY_PRESENT (page m)) eqn:Ekey; simpl.
    + apply effect_sent; try assumption; try reflexivity.
      simpl. rewrite Ht. reflexivity.
    + apply effect_refused; try assumption; reflexivity.
  - case_bool_decide as Hin; [|discriminate]. intros [= <-].
    destruct Hm as [[Ht _]|(t & Ht & Hd & Hv)].
    { rewrite Ht in Hin. apply elem_of_nil in Hin. contradiction. }
    rewrite Ht in Hin |- *. apply list_elem_of_singleton in Hin. subst t.
    rewrite (proj2 (settle_alone _)).
    unfold after_fetch, throw. destruct r as [resp|message]; simpl.
    + apply (effect_quiet _ _ (inputValue (page m))).
      * destruct (ok resp); simpl; symmetry; apply set_inputValue_same.
      * rewrite Ht. destruct (ok resp); reflexivity.
    + apply (effect_failed _ _ _ message Ht); reflexivity.
  - case_bool_decide as Hin; [|discriminate]. intros [= <-].
    destruct Hm as [[Ht _]|(t & Ht & Hd & Hv)].
    { rewrite Ht in Hin. apply elem_of_nil in Hin. contradiction. }
    rewrite Ht in Hin |- *. apply list_elem_of_singleton in Hin. subst t.
    rewrite (proj2 (settle_alone _)).
    unfold after_text, throw. destruct r as [errText|message]; simpl.
    + apply (effect_failed _ _ _ (api_error_message status errText) Ht);
        reflexivity.
    + apply (effect_failed _ _ _ message Ht); reflexivity.
  - case_bool_decide as Hin; [|discriminate]. intros [= <-].
    destruct Hm as [[Ht _]|(t & Ht & Hd & Hv)].
    { rewrite Ht in Hin. apply elem_of_nil in Hin. contradiction. }
    rewrite Ht in Hin |- *. apply list_elem_of_singleton in Hin. subst t.
    rewrite (proj2 (settle_alone _)).
    unfold after_json, throw. destruct r as [data|message]; simpl.
    + destruct (truthy (aiContent_of data)) eqn:Etruthy; simpl.
      * apply (effect_replied _ _ _ (aiContent_of data) Ht Etruthy);
          reflexivity.
      * apply (effect_failed _ _ _ no_content_message Ht); reflexivity.
    + apply (effect_failed _ _ _ message Ht); reflexivity.
Qed.

Lemma prepared_messages st :
  messages (prepared st)
  = messages st ++ name_note (trim (inputValue st))
    ++ [MkTurn user (JStr (trim (inputValue st)))].
Proof.
  unfold prepared, name_note.
  destruct (nameMatch (trim (inputValue st))); cbn;
    rewrite <- ?app_assoc; reflexivity.
Qed.

Lemma prepared_userName st :
  userName (prepared st)
  = match nameMatch (trim (inputValue st)) with
    | Some group1 => group1
    | None => userName st
    end.
Proof.
  unfold prepared. destruct (nameMatch (trim (inputValue st))); reflexivity.
Qed.

Lemma prepared_chatWindow st :
  chatWindow (prepared st)
  = remove_first is_latest_question
      (chatWindow st
       ++ [Bubble (lit "msg user")
             (Some (display_name (set_userName (userName (prepared st)) st)))
             (JStr (trim (inputValue st)))])
    ++ [LatestQuestion (lit "Latest question: " ++ trim (inputValue st));
        Thinking (nextId st)].
Proof.
  rewrite prepared_userName. unfold prepared.
  destruct (nameMatch (trim (inputValue st))) as [group1|]; cbn.
  - unfold display_name. cbn.
    destruct group1 as [[|c n]|]; cbn; rewrite <- app_assoc; reflexivity.
  - unfold display_name. cbn.
    destruct (userName st) as [[|c n]|]; cbn; rewrite <- app_assoc;
      reflexivity.
Qed.

Lemma prepared_rest st :
  requests (prepared st) = requests st
  /\ consoleErrors (prepared st) = consoleErrors st
  /\ OPENAI_API_KEY (prepared st) = OPENAI_API_KEY st
  /\ OPENAI_KEY_PRESENT (prepared st) = OPENAI_KEY_PRESENT st
  /\ inputValue (prepared st) = []
  /\ inputDisabled (prepared st) = true.
Proof.
  unfold prepared.
  destruct (nameMatch (trim (inputValue st))); repeat split.
Qed.

(** ** Properties of [trim] *)

Lemma trimStart_split s :
  exists p, s = p ++ trimStart s /\ Forall (fun c => isWhiteSpace c = true) p.
Proof.
  induction s as [|c s (p & E & Hp)]; simpl.
  - exists []. split; [reflexivity|constructor].
  - destruct (isWhiteSpace c) eqn:Hc.
    + exists (c :: p). simpl. split; [congruence|]. constructor; assumption.
    + exists []. split; [reflexivity|constructor].
Qed.

Lemma trimStart_head s c r :
  trimStart s = c :: r -> isWhiteSpace c = false.
Proof.
  induction s as [|c0 s IH]; simpl; [discriminate|].
  destruct (isWhiteSpace c0) eqn:Hc; [exact IH|].
  intros [= <- _]. exact Hc.
Qed.

Lemma trimEnd_split s :
  exists q, s = trimEnd s ++ q /\ Forall (fun c => isWhiteSpace c = true) q.
Proof.
  unfold trimEnd. destruct (trimStart_split (rev s)) as (p & E & Hp).
  exists (rev p). split.
  - rewrite <- rev_app_distr, <- E, rev_involutive. reflexivity.
  - apply Forall_rev, Hp.
Qed.

Lemma trimEnd_last s d :
  trimEnd s <> [] -> isWhiteSpace (List.last (trimEnd s) d) = false.
Proof.
  unfold trimEnd. destruct (trimStart (rev s)) as [|c r] eqn:E.
  - intros H. contradiction H. reflexivity.
  - intros _. simpl. rewrite last_last. apply (trimStart_head _ _ _ E).
Qed.

Lemma trim_split s :
  exists p q,
    s = p ++ trim s ++ q
    /\ Forall (fun c => isWhiteSpace c = true) p
    /\ Forall (fun c => isWhiteSpace c = true) q.
Proof.
  unfold trim. destruct (trimStart_split s) as (p & E & Hp).
  destruct (trimEnd_split (trimStart s)) as (q & E' & Hq).
  exists p, q. repeat split; try assumption. rewrite <- E'. exact E.
Qed.

Lemma trim_is_trimmed s : trim s <> [] -> is_trimmed (trim s) = true.
Proof.
  intros Hne. unfold is_trimmed.
  destruct (trim s) as [|c r] eqn:E; [contradiction Hne; reflexivity|].
  apply andb_true_intro. split; apply negb_true_iff.
  - unfold trim in E. destruct (trimEnd_split (trimStart s)) as (q & E' & _).
    rewrite E in E'. simpl in E'. apply (trimStart_head _ _ _ E').
  - rewrite <- E. apply trimEnd_last. unfold trim in E. rewrite E.
    discriminate.
Qed.

Lemma trimStart_blank s :
  Forall (fun c => isWhiteSpace c = true) s -> trimStart s = [].
Proof.
  induction 1 as [|c s Hc _ IH]; simpl; [reflexivity|].
  rewrite Hc. exact IH.
Qed.

Lemma blank_iff_white_space s :
  trim s = [] <-> Forall (fun c => isWhiteSpace c = true) s.
Proof.
  split.
  - intros E. destruct (trim_split s) as (p & q & Es & Hp & Hq).
    rewrite E in Es. rewrite Es. apply Forall_app. split; assumption.
  - intros H. unfold trim. rewrite (trimStart_blank _ H). reflexivity.
Qed.

Lemma asking_reachable : reachable asking.
Proof.
  apply (reachable_step
           (MkMachine (set_inputValue (lit "Hi") page_with_key) []) ESubmit);
    [|vm_compute; reflexivity].
  apply (reachable_step (MkMachine page_with_key []) (EInput (lit "Hi")));
    [|vm_compute; reflexivity].
  apply (reachable_load (Some (lit "sk-test"))). reflexivity.
Qed.

(** ** Invariants of the page *)

Lemma thinking_ids_remove_latest w :
  thinking_ids (remove_first is_latest_question w) = thinking_ids w.
Proof.
  induction w as [|n w IH]; [reflexivity|].
  destruct n; simpl; try rewrite IH; reflexivity.
Qed.

Lemma thinking_ids_remove th w :
  thinking_ids w = [th] ->
  thinking_ids (remove_first (is_thinking th) w) = [].
Proof.
  induction w as [|n w IH]; [discriminate|].
  destruct n as [cls name text|text|i]; simpl; try exact IH.
  intros [= -> Hw]. rewrite Nat.eqb_refl. exact Hw.
Qed.

Lemma latest_remove_thinking th w :
  latest_question_texts (remove_first (is_thinking th) w)
  = latest_question_texts w.
Proof.
  induction w as [|n w IH]; [reflexivity|].
  destruct n as [cls name text|text|i]; simpl; try rewrite IH;
    try reflexivity.
  destruct (Nat.eqb i th); simpl; [reflexivity|exact IH].
Qed.

Lemma latest_remove_latest w :
  (length (latest_question_texts w) <= 1)%nat ->
  latest_question_texts (remove_first is_latest_question w) = [].
Proof.
  induction w as [|n w IH]; [reflexivity|].
  destruct n as [cls name text|text|i]; simpl; try exact IH.
  intros H. destruct (latest_question_texts w); [reflexivity|].
  simpl in H. lia.
Qed.

Arguments prepared : simpl never.

(** *** The fields of the page after each effect *)

Lemma quiet_fields v st :
  messages (set_inputValue v st) = messages st
  /\ chatWindow (set_inputValue v st) = chatWindow st
  /\ requests (set_inputValue v st) = requests st
  /\ consoleErrors (set_inputValue v st) = consoleErrors st
  /\ OPENAI_API_KEY (set_inputValue v st) = OPENAI_API_KEY st
  /\ OPENAI_KEY_PRESENT (set_inputValue v st) = OPENAI_KEY_PRESENT st.
Proof. repeat split. Qed.

Lemma sent_fields r st :
  messages (set_requests r st) = messages st
  /\ chatWindow (set_requests r st) = chatWindow st
  /\ requests (set_requests r st) = r
  /\ consoleErrors (set_requests r st) = consoleErrors st
  /\ OPENAI_API_KEY (set_requests r st) = OPENAI_API_KEY st
  /\ OPENAI_KEY_PRESENT (set_requests r st) = OPENAI_KEY_PRESENT st.
Proof. repeat split. Qed.

Lemma failed_fields thinking message st :
  let st' := finally_block (catch_block thinking message st) in
  messages st' = messages st
  /\ chatWindow st'
     = remove_first (is_thinking thinking) (chatWindow st)
       ++ [error_bubble message]
  /\ requests st' = requests st
  /\ consoleErrors st' = consoleErrors st ++ [message]
  /\ OPENAI_API_KEY st' = OPENAI_API_KEY st
  /\ OPENAI_KEY_PRESENT st' = OPENAI_KEY_PRESENT st.
Proof. repeat split. Qed.

Lemma replied_fields thinking aiContent st :
  let st' :=
    finally_block
      (push (MkTurn assistant aiContent)
         (appendMessage aiContent "ai" None (remove_thinking thinking st))) in
  messages st' = messages st ++ [MkTurn assistant aiContent]
  /\ chatWindow st'
     = remove_first (is_thinking thinking) (chatWindow st)
       ++ [Bubble (lit "msg ai") None aiContent]
  /\ requests st' = requests st
  /\ consoleErrors st' = consoleErrors st
  /\ OPENAI_API_KEY st' = OPENAI_API_KEY st
  /\ OPENAI_KEY_PRESENT st' = OPENAI_KEY_PRESENT st.
Proof. repeat split. Qed.

Lemma thinking_ids_prepared st :
  thinking_ids (chatWindow (prepared st))
  = thinking_ids (chatWindow st) ++ [nextId st].
Proof.
  rewrite prepared_chatWindow. unfold thinking_ids at 1. rewrite omap_app.
  change (omap _ ?w ++ _) with (thinking_ids w ++ [nextId st]).
  rewrite thinking_ids_remove_latest. unfold thinking_ids.
  rewrite omap_app. simpl. rewrite app_nil_r. reflexivity.
Qed.

Lemma thinking_ids_snoc_bubble w cls name text :
  thinking_ids (w ++ [Bubble cls name text]) = thinking_ids w.
Proof. unfold thinking_ids. rewrite omap_app. apply app_nil_r. Qed.

(** The cases of [step_effect], with the fields of the new page written
    out. *)
Ltac use_fields H :=
  let F1 := fresh in let F2 := fresh in let F3 := fresh in
  let F4 := fresh in let F5 := fresh in let F6 := fresh in
  destruct H as (F1 & F2 & F3 & F4 & F5 & F6);
  rewrite ?F1, ?F2, ?F3, ?F4, ?F5, ?F6; clear F1 F2 F3 F4 F5 F6.

Ltac effect_cases m Hib Hstep :=
  let Hp := fresh "Hp" in
  destruct (step_effect _ _ _ Hib Hstep)
    as [v Hp Ht|Ht Htext Hkey Hp Ht'|Ht Htext Hkey Hp Ht'
       |t message Ht Hp Ht'|t aiContent Ht Hc Hp Ht'];
  rewrite Hp; clear Hp;
  [ use_fields (quiet_fields v (page m))
  | use_fields (sent_fields
                  (requests (page m)
                   ++ [completion_request (prepared (page m))])
                  (prepared (page m)))
  | use_fields (failed_fields (nextId (page m)) missing_key_message
                  (prepared (page m)))
  | use_fields (failed_fields (task_thinking t) message (page m))
  | use_fields (replied_fields (task_thinking t) aiContent (page m)) ].

(** X4: the thinking indicator is in the window exactly while a request
    is pending: the indicators of the window are those of the suspended
    handlers, none when the page is idle. *)
Theorem thinking_shown_while_pending m :
  reachable m ->
  thinking_ids (chatWindow (page m)) = map task_thinking (tasks m).
Proof.
  intros Hm. induction Hm as [key st Hload|m e m' Hm IH Hstep].
  - injection Hload as <-. reflexivity.
  - pose proof (reachable_idle_or_busy _ Hm) as Hib.
    effect_cases m Hib Hstep.
    + rewrite Ht. exact IH.
    + rewrite Ht', thinking_ids_prepared, IH, Ht. reflexivity.
    + rewrite Ht'. unfold error_bubble. rewrite thinking_ids_snoc_bubble.
      apply thinking_ids_remove.
      rewrite thinking_ids_prepared, IH, Ht. reflexivity.
    + rewrite Ht'. unfold error_bubble. rewrite thinking_ids_snoc_bubble.
      apply thinking_ids_remove. rewrite IH, Ht. reflexivity.
    + rewrite Ht'. rewrite thinking_ids_snoc_bubble.
      apply thinking_ids_remove. rewrite IH, Ht. reflexivity.
Qed.

Lemma thinking_shown_while_pending_witness :
  thinking_ids (chatWindow (page asking))
  = map task_thinking (tasks asking).
Proof.
  apply (thinking_shown_while_pending asking).
  apply asking_reachable.
Defined.

Lemma latest_snoc_other w n :
  is_latest_question n = false ->
  latest_question_texts (w ++ [n]) = latest_question_texts w.
Proof.
  intros H. unfold latest_question_texts. rewrite omap_app.
  destruct n; try discriminate; apply app_nil_r.
Qed.

Lemma latest_prepared st :
  (length (latest_question_texts (chatWindow st)) <= 1)%nat ->
  latest_question_texts (chatWindow (prepared st))
  = [lit "Latest question: " ++ trim (inputValue st)].
Proof.
  intros H. rewrite prepared_chatWindow.
  unfold latest_question_texts at 1. rewrite omap_app.
  change (omap _ ?w ++ _)
    with (latest_question_texts w
          ++ [lit "Latest question: " ++ trim (inputValue st)]).
  rewrite latest_remove_latest; [reflexivity|].
  rewrite latest_snoc_other by reflexivity. exact H.
Qed.

Lemma last_user_text_prepared st :
  last_user_text (messages (prepared st)) = Some (trim (inputValue st)).
Proof.
  rewrite prepared_messages. unfold last_user_text.
  rewrite !omap_app, app_assoc. apply last_snoc.
Qed.

Lemma last_user_text_reply l aiContent :
  last_user_text (l ++ [MkTurn assistant aiContent]) = last_user_text l.
Proof.
  unfold last_user_text. rewrite omap_app. simpl. rewrite app_nil_r.
  reflexivity.
Qed.

(** X5: the window holds at most one latest-question block, and it shows
    the text of the last user Turn of the Transcript; before the first
    submission there is none. *)
Theorem latest_question_is_the_last_user_turn m :
  reachable m ->
  latest_question_texts (chatWindow (page m))
  = match last_user_text (messages (page m)) with
    | Some text => [lit "Latest question: " ++ text]
    | None => []
    end.
Proof.
  intros Hm. induction Hm as [key st Hload|m e m' Hm IH Hstep].
  - injection Hload as <-. reflexivity.
  - pose proof (reachable_idle_or_busy _ Hm) as Hib.
    assert (length (latest_question_texts (chatWindow (page m))) <= 1)%nat
      as Hone.
    { rewrite IH. destruct (last_user_text (messages (page m))); simpl; lia. }
    effect_cases m Hib Hstep.
    + exact IH.
    + rewrite last_user_text_prepared. apply latest_prepared, Hone.
    + rewrite last_user_text_prepared.
      rewrite latest_snoc_other, latest_remove_thinking by reflexivity.
      apply latest_prepared, Hone.
    + rewrite latest_snoc_other, latest_remove_thinking by reflexivity.
      exact IH.
    + rewrite last_user_text_reply.
      rewrite latest_snoc_other, latest_remove_thinking by reflexivity.
      exact IH.
Qed.

Lemma latest_question_is_the_last_user_turn_witness :
  latest_question_texts (chatWindow (page asking))
  = match last_user_text (messages (page asking)) with
    | Some text => [lit "Latest question: " ++ text]
    | None => []
    end.
Proof.
  apply (latest_question_is_the_last_user_turn asking).
  apply asking_reachable.
Defined.

(** *** The requests *)

Lemma completion_request_authorized st k :
  OPENAI_API_KEY st = Some k -> k <> [] ->
  authorized (OPENAI_API_KEY st) (completion_request st).
Proof.
  intros Hk Hne. exists k. unfold completion_request.
  cbn [url method headers body body_model body_max_tokens].
  rewrite Hk. repeat split; assumption.
Qed.

Lemma key_present_true key :
  key_present key = true -> exists k, key = Some k /\ k <> [].
Proof.
  destruct key as [k|]; simpl; [|discriminate].
  intros H%negb_true_iff%jsstring_eqb_nil_false. eauto.
Qed.

Lemma requests_invariant m :
  reachable m ->
  OPENAI_KEY_PRESENT (page m) = key_present (OPENAI_API_KEY (page m))
  /\ Forall (authorized (OPENAI_API_KEY (page m))) (requests (page m)).
Proof.
  intros Hm. induction Hm as [key st Hload|m e m' Hm [IHk IHr] Hstep].
  - injection Hload as <-. split; [reflexivity|constructor].
  - pose proof (reachable_idle_or_busy _ Hm) as Hib.
    destruct (prepared_rest (page m)) as (Pr & _ & Pk & Pp & _ & _).
    effect_cases m Hib Hstep; rewrite ?Pr, ?Pk, ?Pp;
      try (split; assumption).
    split; [exact IHk|]. apply Forall_app. split; [exact IHr|].
    repeat constructor. rewrite <- Pk.
    rewrite Hkey in IHk. symmetry in IHk.
    apply key_present_true in IHk as (k & Hk & Hne).
    apply (completion_request_authorized _ k); [|exact Hne].
    rewrite Pk. exact Hk.
Qed.

(** X6: every request that the page has issued goes to the completions
    endpoint as a POST with the model "gpt-4o" and the limit 600, and
    carries "Bearer " and the key of the page, which is then a string that
    is not empty; the page never sends "Bearer undefined" or an empty
    key. *)
Theorem requests_carry_the_key m :
  reachable m ->
  OPENAI_KEY_PRESENT (page m) = key_present (OPENAI_API_KEY (page m))
  /\ Forall (authorized (OPENAI_API_KEY (page m))) (requests (page m)).
Proof. apply requests_invariant. Qed.

Lemma requests_carry_the_key_witness :
  OPENAI_KEY_PRESENT (page asking)
  = key_present (OPENAI_API_KEY (page asking))
  /\ Forall (authorized (OPENAI_API_KEY (page asking)))
       (requests (page asking)).
Proof.
  apply (requests_carry_the_key asking).
  apply asking_reachable.
Defined.

Lemma last_prepared st :
  last (messages (prepared st))
  = Some (MkTurn user (JStr (trim (inputValue st)))).
Proof. rewrite prepared_messages, app_assoc. apply last_snoc. Qed.

(** X7: the Turns of every request that the page has issued are a
    beginning of the present Transcript, and they end with a user Turn:
    each request carried the conversation as it was, up to the question
    it asks. *)
Theorem requests_are_snapshots m :
  reachable m ->
  Forall (fun r =>
            body_messages (body r) `prefix_of` messages (page m)
            /\ exists text,
                 last (body_messages (body r))
                 = Some (MkTurn user (JStr text)))
    (requests (page m)).
Proof.
  intros Hm. induction Hm as [key st Hload|m e m' Hm IH Hstep].
  - injection Hload as <-. constructor.
  - pose proof (reachable_idle_or_busy _ Hm) as Hib.
    assert (forall new,
      Forall (fun r =>
                body_messages (body r) `prefix_of` messages (page m) ++ new
                /\ exists text,
                     last (body_messages (body r))
                     = Some (MkTurn user (JStr text)))
        (requests (page m))) as Hgrow.
    { intros new. eapply Forall_impl; [exact IH|].
      intros r [Hp Hl]. split; [|exact Hl]. apply prefix_app_r, Hp. }
    destruct (prepared_rest (page m)) as (Pr & _).
    effect_cases m Hib Hstep; rewrite ?Pr, ?prepared_messages; try exact IH.
    + apply Forall_app. split; [apply Hgrow|]. repeat constructor.
      * unfold completion_request. cbn [body body_messages].
        rewrite prepared_messages. reflexivity.
      * unfold completion_request. cbn [body body_messages].
        rewrite last_prepared. eauto.
    + apply Hgrow.
    + apply Hgrow.
Qed.

Lemma requests_are_snapshots_witness :
  Forall (fun r =>
            body_messages (body r)
              `prefix_of` messages (page asking)
            /\ exists text,
                 last (body_messages (body r))
                 = Some (MkTurn user (JStr text)))
    (requests (page asking)).
Proof.
  apply (requests_are_snapshots asking).
  apply asking_reachable.
Defined.

(** *** Window and Transcript *)

Lemma user_bubbles_remove p w :
  (forall n, p n = true -> match n with Bubble _ _ _ => False | _ => True end) ->
  user_bubble_texts (remove_first p w) = user_bubble_texts w.
Proof.
  intros Hp. induction w as [|n w IH]; [reflexivity|]. simpl.
  destruct (p n) eqn:E.
  - apply Hp in E. destruct n; [contradiction|reflexivity|reflexivity].
  - simpl. unfold user_bubble_texts in *. simpl. rewrite IH. reflexivity.
Qed.

Lemma latest_is_no_bubble n :
  is_latest_question n = true ->
  match n with Bubble _ _ _ => False | _ => True end.
Proof. destruct n; simpl; [discriminate|trivial|trivial]. Qed.

Lemma thinking_is_no_bubble th n :
  is_thinking th n = true ->
  match n with Bubble _ _ _ => False | _ => True end.
Proof. destruct n; simpl; [discriminate|trivial|trivial]. Qed.

Lemma user_bubbles_prepared st :
  user_bubble_texts (chatWindow (prepared st))
  = user_bubble_texts (chatWindow st) ++ [JStr (trim (inputValue st))].
Proof.
  rewrite prepared_chatWindow. unfold user_bubble_texts at 1.
  rewrite omap_app.
  change (omap _ ?w ++ _) with (user_bubble_texts w ++ []).
  rewrite app_nil_r, (user_bubbles_remove _ _ latest_is_no_bubble).
  unfold user_bubble_texts. rewrite omap_app. reflexivity.
Qed.

Lemma user_bubbles_snoc_ai w text :
  user_bubble_texts (w ++ [Bubble (lit "msg ai") None text])
  = user_bubble_texts w.
Proof. unfold user_bubble_texts. rewrite omap_app. apply app_nil_r. Qed.

Lemma user_turns_prepared st :
  user_turn_contents (messages (prepared st))
  = user_turn_contents (messages st) ++ [JStr (trim (inputValue st))].
Proof.
  rewrite prepared_messages. unfold user_turn_contents, name_note.
  rewrite !omap_app. destruct (nameMatch (trim (inputValue st))); reflexivity.
Qed.

Lemma user_turns_reply l aiContent :
  user_turn_contents (l ++ [MkTurn assistant aiContent])
  = user_turn_contents l.
Proof. unfold user_turn_contents. rewrite omap_app. apply app_nil_r. Qed.

(** X8: the user bubbles of the window are the user Turns of the
    Transcript: the same texts in the same order. *)
Theorem user_bubbles_are_the_user_turns m :
  reachable m ->
  user_bubble_texts (chatWindow (page m))
  = user_turn_contents (messages (page m)).
Proof.
  intros Hm. induction Hm as [key st Hload|m e m' Hm IH Hstep].
  - injection Hload as <-. reflexivity.
  - pose proof (reachable_idle_or_busy _ Hm) as Hib.
    effect_cases m Hib Hstep; unfold error_bubble;
      rewrite ?user_bubbles_snoc_ai,
        ?(user_bubbles_remove _ _ (thinking_is_no_bubble _)),
        ?user_bubbles_prepared, ?user_turns_prepared, ?user_turns_reply;
      congruence.
Qed.

Lemma user_bubbles_are_the_user_turns_witness :
  user_bubble_texts (chatWindow (page asking))
  = user_turn_contents (messages (page asking)).
Proof.
  apply (user_bubbles_are_the_user_turns asking). apply asking_reachable.
Defined.

Lemma ai_bubbles_prepared st :
  List.filter is_ai_bubble (chatWindow (prepared st))
  = List.filter is_ai_bubble (chatWindow st).
Proof.
  rewrite prepared_chatWindow. rewrite List.filter_app.
  rewrite (filter_remove_first _ _ _ latest_question_not_ai).
  rewrite List.filter_app. simpl. rewrite !app_nil_r. reflexivity.
Qed.

Lemma ai_bubbles_snoc th w text :
  List.filter is_ai_bubble
    (remove_first (is_thinking th) w ++ [Bubble (lit "msg ai") None text])
  = List.filter is_ai_bubble w ++ [Bubble (lit "msg ai") None text].
Proof.
  rewrite List.filter_app, (filter_remove_first _ _ _ (thinking_not_ai th)).
  reflexivity.
Qed.

Lemma assistants_prepared st :
  List.filter is_assistant (messages (prepared st))
  = List.filter is_assistant (messages st).
Proof.
  rewrite prepared_messages, !List.filter_app. unfold name_note.
  destruct (nameMatch (trim (inputValue st))); simpl;
    rewrite ?app_nil_r; reflexivity.
Qed.

(** X9: the assistant bubbles of the window are as many as the
    assistant Turns of the Transcript and the errors logged to the
    console together: every reply and every error has its bubble, and
    there is no other. *)
Theorem ai_bubbles_are_replies_and_errors m :
  reachable m ->
  length (List.filter is_ai_bubble (chatWindow (page m)))
  = (length (List.filter is_assistant (messages (page m)))
     + length (consoleErrors (page m)))%nat.
Proof.
  intros Hm. induction Hm as [key st Hload|m e m' Hm IH Hstep].
  - injection Hload as <-. reflexivity.
  - pose proof (reachable_idle_or_busy _ Hm) as Hib.
    destruct (prepared_rest (page m)) as (_ & Pc & _).
    effect_cases m Hib Hstep; unfold error_bubble;
      rewrite ?ai_bubbles_snoc, ?ai_bubbles_prepared, ?assistants_prepared,
        ?Pc, ?List.filter_app, ?length_app; simpl; lia.
Qed.

Lemma ai_bubbles_are_replies_and_errors_witness :
  length (List.filter is_ai_bubble (chatWindow (page asking)))
  = (length (List.filter is_assistant (messages (page asking)))
     + length (consoleErrors (page asking)))%nat.
Proof.
  apply (ai_bubbles_are_replies_and_errors asking). apply asking_reachable.
Defined.

(** *** The order and the form of the Turns *)

Lemma replies_follow_app l new :
  replies_follow l ->
  Forall (fun t => role t <> assistant) new ->
  replies_follow (l ++ new).
Proof.
  intros Hl Hnew i t Hi Hrole.
  destruct (decide (S i < length l)%nat) as [Hlt|Hge].
  - rewrite lookup_app_l in Hi by exact Hlt.
    destruct (Hl i t Hi Hrole) as [->|(u & Hu & Hr)]; [left; reflexivity|].
    right. exists u. split; [|exact Hr]. apply lookup_app_l_Some, Hu.
  - rewrite lookup_app_r in Hi by lia.
    apply list_elem_of_lookup_2 in Hi.
    rewrite Forall_forall in Hnew. apply Hnew in Hi. contradiction.
Qed.

Lemma replies_follow_reply l u t :
  replies_follow l -> last l = Some u -> role u = user ->
  replies_follow (l ++ [t]).
Proof.
  intros Hl Hlast Hu i t' Hi Hrole.
  destruct (decide (S i < length l)%nat) as [Hlt|Hge].
  - rewrite lookup_app_l in Hi by exact Hlt.
    destruct (Hl i t' Hi Hrole) as [->|(u' & Hu' & Hr)]; [left; reflexivity|].
    right. exists u'. split; [|exact Hr]. apply lookup_app_l_Some, Hu'.
  - right. exists u. split; [|exact Hu].
    assert (S i = length l) as Hlen.
    { apply lookup_lt_Some in Hi. rewrite length_app in Hi. simpl in Hi. lia. }
    rewrite last_lookup in Hlast. apply lookup_app_l_Some.
    rewrite <- Hlen in Hlast. exact Hlast.
Qed.

Lemma name_note_no_reply text :
  Forall (fun t => role t <> assistant) (name_note text).
Proof.
  unfold name_note. destruct (nameMatch text); repeat constructor;
    discriminate.
Qed.

Lemma replies_invariant m :
  reachable m ->
  (tasks m <> [] ->
   exists text, last (messages (page m)) = Some (MkTurn user (JStr text)))
  /\ replies_follow (messages (page m)).
Proof.
  intros Hm. induction Hm as [key st Hload|m e m' Hm [IHl IHr] Hstep].
  - injection Hload as <-. split; [intros H; contradiction H; reflexivity|].
    intros [|[|i]] t Hi Hrole; [left; reflexivity| |]; discriminate Hi.
  - pose proof (reachable_idle_or_busy _ Hm) as Hib.
    assert (replies_follow (messages (prepared (page m)))) as Hprep.
    { rewrite prepared_messages. apply replies_follow_app; [exact IHr|].
      apply Forall_app. split; [apply name_note_no_reply|].
      repeat constructor. discriminate. }
    effect_cases m Hib Hstep.
    + split; [|exact IHr]. intros Hne. apply IHl. intros E.
      rewrite E in Ht. destruct (tasks m'); [contradiction|discriminate Ht].
    + split; [|exact Hprep]. intros _. rewrite last_prepared. eauto.
    + split; [|exact Hprep]. intros H. contradiction.
    + split; [|exact IHr]. intros H. contradiction.
    + split; [intros H; contradiction|].
      destruct IHl as (text & Hlast); [rewrite Ht; discriminate|].
      apply (replies_follow_reply _ _ _ IHr Hlast). reflexivity.
Qed.

(** X10: every assistant Turn after the greeting comes directly after a
    user Turn, and while a request is pending the Transcript ends with
    the user Turn it asks about: a reply is pushed next to its question,
    never after another reply or after a name note. *)
Theorem replies_follow_their_question m :
  reachable m ->
  (tasks m <> [] ->
   exists text, last (messages (page m)) = Some (MkTurn user (JStr text)))
  /\ forall i t,
       messages (page m) !! S i = Some t -> role t = assistant ->
       i = 0%nat
       \/ exists u, messages (page m) !! i = Some u /\ role u = user.
Proof. apply replies_invariant. Qed.

Lemma replies_follow_their_question_witness :
  (tasks asking <> [] ->
   exists text,
     last (messages (page asking)) = Some (MkTurn user (JStr text)))
  /\ forall i t,
       messages (page asking) !! S i = Some t -> role t = assistant ->
       i = 0%nat
       \/ exists u, messages (page asking) !! i = Some u /\ role u = user.
Proof.
  apply (replies_follow_their_question asking). apply asking_reachable.
Defined.

Lemma nameMatch_word text X :
  nameMatch text = Some (Some X) ->
  (2 <= length X)%nat /\ Forall (fun ch => isAsciiLetter ch = true) X.
Proof.
  unfold nameMatch, String_match.
  destruct (exec_from true nameRegex [] text) as [y|] eqn:E; [|discriminate].
  intros [= Hy].
  apply exec_from_shape in E as (X' & pre & post & Hc & E' & Hl & Hall).
  rewrite Hy in Hc. injection Hc as <-. split; assumption.
Qed.

Lemma name_note_wf text : Forall wf_turn (name_note text).
Proof.
  unfold name_note. destruct (nameMatch text) as [group1|] eqn:E;
    [|constructor].
  destruct (nameMatch_group1 _ _ E) as [X ->].
  constructor; [|constructor]. unfold wf_turn. simpl. right. exists X.
  split; [reflexivity|]. apply (nameMatch_word _ _ E).
Qed.

(** X11: the Transcript holds only Turns of four forms: the system
    prompt; a name note "User's name is X." where X is two or more ASCII
    letters; a user Turn whose text is not empty and has no white space
    at either end; an assistant Turn whose content counts as true. *)
Theorem transcript_is_well_formed m :
  reachable m -> Forall wf_turn (messages (page m)).
Proof.
  intros Hm. induction Hm as [key st Hload|m e m' Hm IH Hstep].
  - injection Hload as <-. constructor; [|constructor; [|constructor]].
    + unfold wf_turn. simpl. left. reflexivity.
    + unfold wf_turn. simpl. vm_compute. reflexivity.
  - pose proof (reachable_idle_or_busy _ Hm) as Hib.
    assert (trim (inputValue (page m)) <> [] ->
            Forall wf_turn (messages (prepared (page m)))) as Hprep.
    { intros Htext. rewrite prepared_messages.
      apply Forall_app. split; [exact IH|].
      apply Forall_app. split; [apply name_note_wf|].
      constructor; [|constructor]. unfold wf_turn. simpl. eexists.
      split; [reflexivity|]. apply trim_is_trimmed, Htext. }
    effect_cases m Hib Hstep; auto.
    apply Forall_app. split; [exact IH|].
    constructor; [|constructor]. exact Hc.
Qed.

Lemma transcript_is_well_formed_witness :
  Forall wf_turn (messages (page asking)).
Proof. apply (transcript_is_well_formed asking). apply asking_reachable. Defined.

(** ** Further properties of the event loop and of one cycle *)

Lemma park_finished_same m : park (Finished (page m)) (tasks m) = m.
Proof. destruct m. reflexivity. Qed.

(** X12: one request at a time.  The page has at most one suspended
    handler; the field is disabled exactly while there is one; and then
    the field takes no input and a submission of the form changes
    nothing, so no second request can go out. *)
Theorem one_request_at_a_time m :
  reachable m ->
  (length (tasks m) <= 1)%nat
  /\ (inputDisabled (page m) = true <-> tasks m <> [])
  /\ (tasks m <> [] ->
      step m ESubmit = Some m /\ forall s, step m (EInput s) = None).
Proof.
  intros Hm. apply reachable_idle_or_busy in Hm.
  destruct Hm as [[Ht Hd]|(t & Ht & Hd & Hv)].
  - rewrite Ht, Hd. split; [simpl; lia|]. split.
    + split; [discriminate|]. intros H. contradiction H. reflexivity.
    + intros H. contradiction H. reflexivity.
  - rewrite Ht, Hd. split; [simpl; lia|]. split.
    + split; [discriminate|reflexivity].
    + intros _. split.
      * simpl. rewrite handler_start_blank by (rewrite Hv; apply trim_nil).
        f_equal. apply park_finished_same.
      * intros s. simpl. rewrite Hd. reflexivity.
Qed.

Lemma one_request_at_a_time_witness :
  (length (tasks asking) <= 1)%nat
  /\ (inputDisabled (page asking) = true <-> tasks asking <> [])
  /\ (tasks asking <> [] ->
      step asking ESubmit = Some asking
      /\ forall s, step asking (EInput s) = None).
Proof. apply (one_request_at_a_time asking). apply asking_reachable. Defined.

(** X13: without a usable key (none, or the empty string) the page never
    calls the service: in every state it can reach, no request has been
    issued. *)
Theorem no_key_no_request m :
  reachable m ->
  key_present (OPENAI_API_KEY (page m)) = false ->
  requests (page m) = [].
Proof.
  intros Hm Hkey. apply requests_invariant in Hm as [_ Hr].
  destruct (requests (page m)) as [|r rs]; [reflexivity|].
  apply Forall_cons in Hr as [(k & Hk & Hne & _) _].
  rewrite Hk in Hkey. simpl in Hkey.
  apply negb_false_iff, jsstring_eqb_nil in Hkey. contradiction.
Qed.

Lemma no_key_no_request_witness :
  requests (page (MkMachine (start (Some [])) [])) = [].
Proof.
  apply (no_key_no_request (MkMachine (start (Some [])) [])).
  - apply (reachable_load (Some [])). reflexivity.
  - reflexivity.
Defined.




(** X15: an envelope without a first choice is a failure, not a crash:
    when the body is null, or has no [choices], or [choices] is null or
    an empty array, the cycle pushes nothing after the user Turn, ends
    the window with the bubble "Error: No content in API response." and
    logs that message. *)
Theorem no_first_choice_is_a_failure rawText rem st resp data :
  trim rawText <> [] ->
  OPENAI_KEY_PRESENT st = true ->
  fetched rem = Resolved resp ->
  ok resp = true ->
  bodyJson rem = Resolved data ->
  (data = JNull
   \/ opt_field data "choices" = JUndefined
   \/ opt_field data "choices" = JNull
   \/ opt_field data "choices" = JArr []) ->
  outcome_of rawText rem st = Failed no_content_message
  /\ messages (submit rawText rem st)
     = messages st ++ name_note (trim rawText)
       ++ [MkTurn user (JStr (trim rawText))]
  /\ last (chatWindow (submit rawText rem st))
     = Some (Bubble (lit "msg ai") None
               (JStr (lit "Error: No content in API response.")))
  /\ consoleErrors (submit rawText rem st)
     = consoleErrors st ++ [lit "No content in API response."].
Proof.
  intros Htext Hkey Hfetch Hok Hjson Hdata.
  assert (aiContent_of data = JUndefined) as Hnone.
  { unfold aiContent_of.
    destruct Hdata as [->|[->|[->| ->]]]; reflexivity. }
  assert (outcome_of rawText rem st = Failed no_content_message) as Hout.
  { unfold outcome_of. apply jsstring_eqb_nil_false in Htext.
    rewrite Htext, Hkey, Hfetch, Hok, Hjson, Hnone. reflexivity. }
  split; [exact Hout|]. split; [|split].
  - rewrite submit_messages. unfold turns_of. rewrite Hout. reflexivity.
  - rewrite (submit_last_shown _ _ _ _ Hout). reflexivity.
  - rewrite submit_consoleErrors, Hout. reflexivity.
Qed.

Lemma no_first_choice_is_a_failure_witness :
  outcome_of (lit "Hi")
    (MkRemote (Resolved (MkResponse 200)) (Resolved [])
       (Resolved (JObj [(lit "choices", JArr [])])))
    page_with_key
  = Failed no_content_message
  /\ messages (submit (lit "Hi")
                 (MkRemote (Resolved (MkResponse 200)) (Resolved [])
                    (Resolved (JObj [(lit "choices", JArr [])])))
                 page_with_key)
     = messages page_with_key ++ name_note (trim (lit "Hi"))
       ++ [MkTurn user (JStr (trim (lit "Hi")))]
  /\ last (chatWindow
             (submit (lit "Hi")
                (MkRemote (Resolved (MkResponse 200)) (Resolved [])
                   (Resolved (JObj [(lit "choices", JArr [])])))
                page_with_key))
     = Some (Bubble (lit "msg ai") None
               (JStr (lit "Error: No content in API response.")))
  /\ consoleErrors
       (submit (lit "Hi")
          (MkRemote (Resolved (MkResponse 200)) (Resolved [])
             (Resolved (JObj [(lit "choices", JArr [])])))
          page_with_key)
     = consoleErrors page_with_key ++ [lit "No content in API response."].
Proof.
  apply (no_first_choice_is_a_failure (lit "Hi")
           (MkRemote (Resolved (MkResponse 200)) (Resolved [])
              (Resolved (JObj [(lit "choices", JArr [])])))
           page_with_key (MkResponse 200)
           (JObj [(lit "choices", JArr [])])).
  - vm_compute. discriminate.
  - reflexivity.
  - reflexivity.
  - reflexivity.
  - reflexivity.
  - right. right. right. reflexivity.
Defined.

(** X16: after a failed cycle the question stays in the Transcript and
    the error does not enter it: the request of the next cycle carries
    the earlier Turns, the unanswered user Turn, and the new user Turn
    directly after it (with their name notes, if any). *)
Theorem failed_question_is_sent_again rawText1 rem1 rawText2 rem2 st message :
  outcome_of rawText1 rem1 st = Failed message ->
  OPENAI_KEY_PRESENT st = true ->
  trim rawText2 <> [] ->
  exists req,
    requests (submit rawText2 rem2 (submit rawText1 rem1 st))
    = requests (submit rawText1 rem1 st) ++ [req]
    /\ body_messages (body req)
       = messages st
         ++ name_note (trim rawText1)
         ++ [MkTurn user (JStr (trim rawText1))]
         ++ name_note (trim rawText2)
         ++ [MkTurn user (JStr (trim rawText2))].
Proof.
  intros Hout Hkey Htext%jsstring_eqb_nil_false.
  rewrite (submit_requests rawText2). unfold sent.
  rewrite Htext, submit_OPENAI_KEY_PRESENT, Hkey. cbn [negb].
  eexists. split; [reflexivity|]. cbn [body body_messages].
  rewrite submit_messages. unfold turns_of. rewrite Hout.
  rewrite <- !app_assoc. reflexivity.
Qed.

Lemma failed_question_is_sent_again_witness :
  exists req,
    requests (submit (lit "And now?") network_down
                (submit (lit "Hi") network_down page_with_key))
    = requests (submit (lit "Hi") network_down page_with_key) ++ [req]
    /\ body_messages (body req)
       = messages page_with_key
         ++ name_note (trim (lit "Hi"))
         ++ [MkTurn user (JStr (trim (lit "Hi")))]
         ++ name_note (trim (lit "And now?"))
         ++ [MkTurn user (JStr (trim (lit "And now?")))].
Proof.
  apply (failed_question_is_sent_again (lit "Hi") network_down
           (lit "And now?") network_down page_with_key
           (lit "Failed to fetch")).
  - reflexivity.
  - reflexivity.
  - vm_compute. discriminate.
Defined.


(** X18: a cycle is a run of the event loop.  From a page with the field
    enabled, the events of the cycle (input, submission, and the
    settlements of the promises that the handler awaits) lead to the
    state that [submit] gives, with no handler left suspended. *)
Theorem cycle_is_a_run_of_the_event_loop rawText rem st :
  inputDisabled st = false ->
  run (MkMachine st []) (cycle_events rawText rem st)
  = Some (MkMachine (submit rawText rem st) []).
Proof. apply submit_run. Qed.

Lemma cycle_is_a_run_of_the_event_loop_witness :
  run (MkMachine page_with_key [])
    (cycle_events (lit "Hello") (service_replies (JStr (lit "Hi there!")))
       page_with_key)
  = Some (MkMachine
            (submit (lit "Hello") (service_replies (JStr (lit "Hi there!")))
               page_with_key) []).
Proof.
  apply (cycle_is_a_run_of_the_event_loop (lit "Hello")
           (service_replies (JStr (lit "Hi there!"))) page_with_key).
  reflexivity.
Defined.

(** X19: a cycle with a text leaves the field empty and focused; a blank
    submission leaves the blank text in the field and the focus as it
    was. *)
Theorem field_is_cleared_unless_blank rawText rem st :
  (trim rawText <> [] ->
   inputValue (submit rawText rem st) = []
   /\ inputFocused (submit rawText rem st) = true)
  /\ (trim rawText = [] ->
      inputValue (submit rawText rem st) = rawText
      /\ inputFocused (submit rawText rem st) = inputFocused st).
Proof.
  split.
  - intros H%jsstring_eqb_nil_false.
    split_cycle rawText rem st; try congruence; split; reflexivity.
  - intros H. rewrite (submit_ignored _ _ _ H). split; reflexivity.
Qed.

Lemma field_is_cleared_unless_blank_witness :
  inputValue (submit (lit "Hi") network_down page_with_key) = []
  /\ inputFocused (submit (lit "Hi") network_down page_with_key) = true.
Proof.
  apply (proj1 (field_is_cleared_unless_blank (lit "Hi") network_down
                  page_with_key)).
  vm_compute. discriminate.
Defined.

(** *** The label of the user bubbles *)

Lemma user_bubble_is_user label text :
  is_user_bubble (Bubble (lit "msg " ++ lit "user") label text) = true.
Proof. reflexivity. Qed.

Lemma ai_bubble_not_user label text :
  is_user_bubble (Bubble (lit "msg " ++ lit "ai") label text) = false.
Proof. reflexivity. Qed.

Lemma latest_question_not_user n :
  is_latest_question n = true -> is_user_bubble n = false.
Proof. destruct n; simpl; congruence. Qed.

Lemma thinking_not_user id n :
  is_thinking id n = true -> is_user_bubble n = false.
Proof. destruct n; simpl; congruence. Qed.

Ltac user_bubbles :=
  repeat first
    [ rewrite List.filter_app
    | rewrite (filter_remove_first _ _ _ (thinking_not_user _))
    | rewrite (filter_remove_first _ _ _ latest_question_not_user) ];
  cbn [List.filter is_user_bubble is_thinking is_latest_question];
  change (jsstring_eqb (lit "msg " ++ lit "user") (lit "msg user")) with true;
  change (jsstring_eqb (lit "msg " ++ lit "ai") (lit "msg user")) with false;
  cbn iota; rewrite ?app_nil_r.

Lemma display_name_word st X :
  userName st = Some X -> X <> [] -> display_name st = X.
Proof.
  unfold display_name. intros -> HX. destruct X; [contradiction|reflexivity].
Qed.

(** X20: the label of the user bubble.  When the text introduces a name
    X, the cycle records X and labels the new user bubble with it; when
    it does not, the recorded name stays and the bubble is labelled with
    it, or with "You" when no name was recorded yet. *)
Theorem user_bubble_carries_the_name rawText rem st :
  (forall X,
     nameMatch (trim rawText) = Some (Some X) ->
     userName (submit rawText rem st) = Some X
     /\ List.filter is_user_bubble (chatWindow (submit rawText rem st))
        = List.filter is_user_bubble (chatWindow st)
          ++ [Bubble (lit "msg user") (Some X) (JStr (trim rawText))])
  /\ (nameMatch (trim rawText) = None ->
      trim rawText <> [] ->
      userName (submit rawText rem st) = userName st
      /\ List.filter is_user_bubble (chatWindow (submit rawText rem st))
         = List.filter is_user_bubble (chatWindow st)
           ++ [Bubble (lit "msg user")
                 (Some (match userName st with
                        | Some [] | None => lit "You"
                        | Some n => n
                        end))
                 (JStr (trim rawText))]).
Proof.
  split.
  - intros X Hm.
    assert (X <> []) as HX.
    { apply nameMatch_word in Hm as [Hl _]. destruct X; [simpl in Hl; lia|].
      discriminate. }
    assert (jsstring_eqb (trim rawText) [] = false) as Htext.
    { apply jsstring_eqb_nil_false. intros E.
      rewrite E, nameMatch_nil in Hm. discriminate Hm. }
    split_cycle rawText rem st; try congruence;
      (split; [congruence|]);
      injection Hm as ->; user_bubbles;
      rewrite (display_name_word _ X) by (reflexivity || exact HX);
      (destruct X as [|c0 X0]; [contradiction|]); reflexivity.
  - intros Hm Htext%jsstring_eqb_nil_false.
    split_cycle rawText rem st; try congruence;
      (split; [reflexivity|]); user_bubbles; unfold display_name; cbn;
      destruct (userName st) as [[|c n]|]; reflexivity.
Qed.

Lemma user_bubble_carries_the_name_witness :
  userName (submit (lit "I'm Zoe") network_down page_with_key)
  = Some (lit "Zoe")
  /\ List.filter is_user_bubble
       (chatWindow (submit (lit "I'm Zoe") network_down page_with_key))
     = List.filter is_user_bubble (chatWindow page_with_key)
       ++ [Bubble (lit "msg user") (Some (lit "Zoe"))
             (JStr (trim (lit "I'm Zoe")))].
Proof.
  apply (proj1 (user_bubble_carries_the_name (lit "I'm Zoe") network_down
                  page_with_key) (lit "Zoe")).
  reflexivity.
Defined.

(** *** Which submissions are ignored, and what text is kept *)

Lemma turns_of_text rawText rem st :
  trim rawText <> [] ->
  exists before_it after_it,
    turns_of rawText rem st
    = before_it ++ [MkTurn user (JStr (trim rawText))] ++ after_it
    /\ omap user_text before_it = []
    /\ omap user_text after_it = [].
Proof.
  intros Htext. unfold turns_of.
  destruct (outcome_of rawText rem st) as [|aiContent|message] eqn:E.
  - apply outcome_ignored in E. contradiction.
  - exists (name_note (trim rawText)), [MkTurn assistant aiContent].
    repeat split. unfold name_note. destruct (nameMatch _); reflexivity.
  - exists (name_note (trim rawText)), []. repeat split.
    unfold name_note. destruct (nameMatch _); reflexivity.
Qed.

(** X2: a submission is ignored exactly when every character of the
    field is white space (the empty text included): then, and only then,
    the cycle leaves the Transcript as it was. *)
Theorem ignored_iff_all_white_space rawText rem st :
  Forall (fun c => isWhiteSpace c = true) rawText
  <-> messages (submit rawText rem st) = messages st.
Proof.
  rewrite <- blank_iff_white_space. split.
  - intros E. rewrite (submit_ignored _ _ _ E). reflexivity.
  - intros H. destruct (decide (trim rawText = [])) as [E|E]; [exact E|].
    rewrite submit_messages in H.
    destruct (turns_of_text rawText rem st E) as (b & a & Ht & _).
    rewrite Ht in H. rewrite <- (app_nil_r (messages st)) in H at 2.
    apply app_inv_head in H. destruct b; discriminate H.
Qed.

(** X3: the text that a cycle keeps is the text of the field without the
    white space around it: the last user Turn after the cycle has a text
    that is not empty, neither begins nor ends with white space, and
    lies in the text of the field between two runs of white space. *)
Theorem user_turn_is_the_trimmed_text rawText rem st :
  trim rawText <> [] ->
  exists p text q,
    last_user_text (messages (submit rawText rem st)) = Some text
    /\ rawText = p ++ text ++ q
    /\ Forall (fun c => isWhiteSpace c = true) p
    /\ Forall (fun c => isWhiteSpace c = true) q
    /\ is_trimmed text = true.
Proof.
  intros Htext. destruct (trim_split rawText) as (p & q & Es & Hp & Hq).
  exists p, (trim rawText), q. repeat split; try assumption.
  - rewrite submit_messages.
    destruct (turns_of_text rawText rem st Htext) as (b & a & -> & Hb & Ha).
    unfold last_user_text. rewrite !omap_app, Hb, Ha. simpl.
    rewrite ?app_nil_r. apply last_snoc.
  - apply trim_is_trimmed, Htext.
Qed.

Lemma user_turn_is_the_trimmed_text_witness :
  exists p text q,
    last_user_text
      (messages (submit (lit "  Hi there ") network_down page_with_key))
    = Some text
    /\ lit "  Hi there " = p ++ text ++ q
    /\ Forall (fun c => isWhiteSpace c = true) p
    /\ Forall (fun c => isWhiteSpace c = true) q
    /\ is_trimmed text = true.
Proof.
  apply (user_turn_is_the_trimmed_text (lit "  Hi there ") network_down
           page_with_key).
  vm_compute. discriminate.
Defined.
